(** * LocoProp: the layer wrapper and the trainer of [locoprop.py]

    A shallow embedding of [src/locoprop.py].  Python exceptions are values
    of an error monad, the trainer's attributes are a record threaded
    through [step], and tensors are lists of rows over a scalar type that
    is a parameter of the whole development: the same code is read over
    the real numbers (exact arithmetic) and over binary64 floats. *)

From Stdlib Require Import String List Bool Arith Lia ZArith Reals Lra Floats.
From Stdlib Require Uint63.
Import ListNotations.

Set Implicit Arguments.

(** ** Python exceptions *)

Inductive PyExn : Type :=
| ValueError (msg : string)
| UnboundLocalError (name : string)
| NameError (name : string)
| KeyError
| IndexError
| TypeError (msg : string)
| RuntimeError (msg : string).

(** The three [ValueError]s of the source, under the names the
    specification gives to the conditions. *)
Definition InvalidArgument : PyExn :=
  ValueError "No argument was given. Provide either input or hidden state.".
Definition UnsupportedActivation : PyExn :=
  ValueError "Unsupported activation function".
Definition InconsistentConfiguration : PyExn :=
  ValueError "Expected trainable layers to be instance of `LocoLayer`".

(** The message of the [TypeError] that multiplying a float by [None]
    raises (lines 136 and 151). *)
Definition float_times_none : string :=
  "unsupported operand type(s) for *: 'float' and 'NoneType'".

(** The [RuntimeError] that [backward()] raises on a loss that no tensor
    requiring a gradient contributes to (line 129). *)
Definition backward_error : PyExn :=
  RuntimeError "element 0 of tensors does not require grad and does not have a grad_fn".

Inductive Result (A : Type) : Type :=
| Ok (a : A)
| Raise (e : PyExn).
Arguments Ok {A} a.
Arguments Raise {A} e.

Definition bind {A B : Type} (r : Result A) (k : A -> Result B) : Result B :=
  match r with
  | Ok a => k a
  | Raise e => Raise e
  end.

Notation "x <- r ;; k" := (bind r (fun x => k))
  (at level 61, r at next level, right associativity).

(** Reading a local variable: a name that the function body assigns
    somewhere is local to the whole body, and reading it before the
    assignment has run raises [UnboundLocalError]. *)
Definition load_fast {A : Type} (name : string) (slot : option A) : Result A :=
  match slot with
  | Some v => Ok v
  | None => Raise (UnboundLocalError name)
  end.

(** Reading a module-level name that no statement of the module binds. *)
Definition load_global {A : Type} (name : string) (slot : option A) : Result A :=
  match slot with
  | Some v => Ok v
  | None => Raise (NameError name)
  end.

(** ** Scalars

    The arithmetic of Python floats and of tensor entries.  [spow_half] is
    [x ** 0.5]; the [lit_] fields are the float literals of the source. *)

Class Arith (S : Type) : Type := {
  zero : S;
  one : S;
  sadd : S -> S -> S;
  ssub : S -> S -> S;
  smul : S -> S -> S;
  sdiv : S -> S -> S;
  sopp : S -> S;
  sexp : S -> S;
  slog : S -> S;
  ssqrt : S -> S;
  spow_half : S -> S;
  sltb : S -> S -> bool;
  of_nat : nat -> S;
  lit_1e_5 : S;
  lit_0_25 : S;
  lit_0_5 : S
}.

Declare Scope scalar_scope.
Delimit Scope scalar_scope with sc.
Notation "x + y" := (sadd x y) : scalar_scope.
Notation "x - y" := (ssub x y) : scalar_scope.
Notation "x * y" := (smul x y) : scalar_scope.
Notation "x / y" := (sdiv x y) : scalar_scope.
Notation "- x" := (sopp x) : scalar_scope.
Notation "x <? y" := (sltb x y) : scalar_scope.

(** ** Generic list helpers *)

Fixpoint map2 {A B C : Type} (f : A -> B -> C) (xs : list A) (ys : list B) : list C :=
  match xs, ys with
  | x :: xs', y :: ys' => f x y :: map2 f xs' ys'
  | _, _ => []
  end.

(** [zip(a, b, c)]: stops at the shortest argument. *)
Fixpoint zip3 {A B C : Type} (xs : list A) (ys : list B) (zs : list C) : list (A * B * C) :=
  match xs, ys, zs with
  | x :: xs', y :: ys', z :: zs' => (x, y, z) :: zip3 xs' ys' zs'
  | _, _, _ => []
  end.

(** [l[i] = v] for an index known to be in range (out of range: unchanged). *)
Fixpoint set_nth {A : Type} (i : nat) (v : A) (l : list A) : list A :=
  match l, i with
  | [], _ => []
  | _ :: l', O => v :: l'
  | x :: l', S i' => x :: set_nth i' v l'
  end.

Section Tensors.
Context {S : Type} {A : Arith S}.
Local Open Scope scalar_scope.

(** Python's [min(a, b)] and [max(a, b)]: the first argument is kept
    unless the second compares strictly below (above) it. *)
Definition py_min (a b : S) : S := if b <? a then b else a.
Definition py_max (a b : S) : S := if a <? b then b else a.

(** [x ** n] for a non-negative integer [n]. *)
Fixpoint spow (x : S) (n : nat) : S :=
  match n with
  | O => one
  | Datatypes.S n' => x * spow x n'
  end.

(** A tensor in its (batch, feature) layout, and a tensor with one
    entry per example. *)
Definition Tensor : Type := list (list S).
Definition Vec : Type := list S.

Definition t_map (f : S -> S) (t : Tensor) : Tensor := map (map f) t.
Definition t_map2 (f : S -> S -> S) (a b : Tensor) : Tensor := map2 (map2 f) a b.

Definition t_add (a b : Tensor) : Tensor := t_map2 sadd a b.
Definition t_sub (a b : Tensor) : Tensor := t_map2 ssub a b.
Definition t_mul (a b : Tensor) : Tensor := t_map2 smul a b.
Definition t_div (a b : Tensor) : Tensor := t_map2 sdiv a b.

(** Arithmetic between a Python number and a tensor. *)
Definition scalar_mul (k : S) (t : Tensor) : Tensor := t_map (fun v => k * v) t.
Definition div_scalar (t : Tensor) (k : S) : Tensor := t_map (fun v => v / k) t.
Definition add_scalar (t : Tensor) (k : S) : Tensor := t_map (fun v => v + k) t.
Definition scalar_sub (k : S) (t : Tensor) : Tensor := t_map (fun v => k - v) t.
Definition add_scalar_left (k : S) (t : Tensor) : Tensor := t_map (fun v => k + v) t.

Definition v_sub (a b : Vec) : Vec := map2 ssub a b.
Definition v_scale (k : S) (v : Vec) : Vec := map (fun x => k * x) v.

Definition t_exp (t : Tensor) : Tensor := t_map sexp t.
Definition t_log (t : Tensor) : Tensor := t_map slog t.
Definition t_neg (t : Tensor) : Tensor := t_map sopp t.

(** [t.clip(lo, hi)] and [t.clip(lo, None)]. *)
Definition clip (lo hi : S) (t : Tensor) : Tensor :=
  t_map (fun v => py_min (py_max v lo) hi) t.
Definition clip_min (lo : S) (t : Tensor) : Tensor :=
  t_map (fun v => py_max v lo) t.

Definition total (v : Vec) : S := fold_left sadd v zero.

(** [t.sum(dim=-1)], [torch.logsumexp(t, dim=-1)], [einsum("bf,bf->b")]. *)
Definition sum_last (t : Tensor) : Vec := map total t.
Definition logsumexp (t : Tensor) : Vec := map (fun row => slog (total (map sexp row))) t.
Definition einsum_bf_bf_b (a b : Tensor) : Vec := map2 (fun r s => total (map2 smul r s)) a b.

(** [t.norm()]: the Frobenius norm over every entry.  In the float
    reading the squares overflow for entries beyond about 1e154, where
    the library's own norm does not. *)
Definition norm (t : Tensor) : S := ssqrt (total (map (fun v => v * v) (concat t))).

(** [t.size(1)]. *)
Definition size1 (t : Tensor) : nat := length (hd [] t).

(** [v.mean()]. *)
Definition mean (v : Vec) : S := total v / of_nat (length v).

(** [t.flatten(start_dim=1)]: the identity on the (batch, feature) layout. *)
Definition flatten (t : Tensor) : Tensor := t.

(** [nn.ReLU]: entries below zero become zero; every other entry, a nan
    or a negative zero of the float reading included, is kept. *)
Definition relu (t : Tensor) : Tensor := t_map (fun v => if v <? zero then zero else v) t.
(** [nn.Sigmoid], [nn.Tanh], [nn.Softmax] and [torch.logsumexp] by
    their defining formulas.  In the float reading they differ from the
    library's where an exponential overflows (the library rescales). *)
Definition sigmoid (t : Tensor) : Tensor := t_map (fun v => one / (one + sexp (- v))) t.
Definition tanh (t : Tensor) : Tensor :=
  t_map (fun v => (sexp v - sexp (- v)) / (sexp v + sexp (- v))) t.
Definition softmax (t : Tensor) : Tensor :=
  map (fun row => let e := map sexp row in map (fun v => v / total e) e) t.
End Tensors.

Arguments Tensor S : clear implicits.
Arguments Vec S : clear implicits.

(** ** Activation modules

    [nn.Sigmoid], [nn.Tanh], [nn.ReLU] and [nn.Softmax] are the four class
    objects the source names.  An activation held by a layer is a module
    instance: an instance of one of the four, or of any other class. *)

Inductive ActivationClass : Type := Sigmoid | Tanh | ReLU | Softmax.

Definition class_eqb (c d : ActivationClass) : bool :=
  match c, d with
  | Sigmoid, Sigmoid | Tanh, Tanh | ReLU, ReLU | Softmax, Softmax => true
  | _, _ => false
  end.

Section Layer.
Context {S : Type} {A : Arith S}.
Local Open Scope scalar_scope.

(** A parameter tensor with its [requires_grad] flag. *)
Record Param : Type := {
  data : Tensor S;
  requires_grad : bool
}.

(** [p.numel()]. *)
Definition numel (p : Param) : nat := length (concat (data p)).

(** A module whose computation is opaque to the trainer: its parameters,
    its forward computation, and whether it returns the very tensor it
    is given (as [nn.Identity] does), so that its output shares the
    storage of its input. *)
Record NnModule : Type := {
  parameters : list Param;
  call : list Param -> Tensor S -> Tensor S;
  returns_input : bool
}.

Definition call_module (m : NnModule) (x : Tensor S) : Tensor S :=
  call m (parameters m) x.

(** An activation instance: an instance of one of the four classes,
    which have no parameters, or any other module. *)
Inductive Activation : Type :=
| Builtin (c : ActivationClass)
| Custom (m : NnModule).

Definition isinstance (a : Activation) (c : ActivationClass) : bool :=
  match a with
  | Builtin d => class_eqb d c
  | Custom _ => false
  end.

(** [self.activation(t)]. *)
Definition activation_call (a : Activation) (t : Tensor S) : Tensor S :=
  match a with
  | Builtin Sigmoid => sigmoid t
  | Builtin Tanh => tanh t
  | Builtin ReLU => relu t
  | Builtin Softmax => softmax t
  | Custom m => call_module m t
  end.

(** [self.activation.parameters()]. *)
Definition activation_parameters (a : Activation) : list Param :=
  match a with
  | Builtin _ => []
  | Custom m => parameters m
  end.

(** An object used as a dictionary key: a class object or a module
    instance.  Module instances hash and compare by identity, so an
    instance is never equal to a class object. *)
Inductive PyObj : Type :=
| ClassObj (c : ActivationClass)
| Instance (a : Activation).

Definition key_matches (k : ActivationClass) (o : PyObj) : bool :=
  match o with
  | ClassObj c => class_eqb k c
  | Instance _ => false
  end.

(** [d[o]] on a dictionary whose keys are class objects. *)
Fixpoint getitem {V : Type} (d : list (ActivationClass * V)) (o : PyObj) : Result V :=
  match d with
  | [] => Raise KeyError
  | (k, v) :: d' => if key_matches k o then Ok v else getitem d' o
  end.

(** The module-level name [F]: the file has no statement that binds it
    (there is no import of [torch.nn.functional]). *)
Definition global_F : option (Tensor S -> Tensor S) := None.

(** Lines 11-15. *)
Definition function_mapping : list (ActivationClass * (Tensor S -> Result (Vec S))) :=
  [ (Sigmoid, fun x => Ok (sum_last (t_add x (t_log (add_scalar_left one (t_exp (t_neg x)))))))
  ; (Tanh, fun x => Ok (sum_last (t_add x (t_log (add_scalar_left one (t_exp (t_neg x)))))))
  ; (ReLU, fun x => F_relu <- load_global "F" global_F ;;
                    Ok (v_scale lit_0_5 (sum_last (t_mul x (F_relu x)))))
  ; (Softmax, fun x => Ok (logsumexp x)) ].

Record LocoLayer : Type := {
  module : NnModule;
  activation : Activation;
  implicit : bool;
  eps : S
}.

(** [self.parameters()] of a [LocoLayer]: the parameters of its
    submodules in the order lines 21-22 register them. *)
Definition loco_parameters (self : LocoLayer) : list Param :=
  parameters (module self) ++ activation_parameters (activation self).

(** Lines 26-37. *)
Definition forward (self : LocoLayer) (x hidden : option (Tensor S)) : Result (Tensor S) :=
  let finish (hidden : Tensor S) :=
    if implicit self then Ok hidden
    else Ok (activation_call (activation self) hidden) in
  match x, hidden with
  | None, None => Raise InvalidArgument
  | Some x, None => finish (call_module (module self) x)
  | _, Some hidden => finish hidden
  end.

(** Lines 39-40. *)
Definition hidden (self : LocoLayer) (x : Tensor S) : Tensor S :=
  call_module (module self) x.

(** Lines 42-57.  The parameter is [target]; the body reads [y], which
    line 53 assigns, so [y] is a local of the function that is unbound
    on entry. *)
Definition _pseudo_inverse (self : LocoLayer) (target : Tensor S) : Result (Tensor S) :=
  let y : option (Tensor S) := None in
  if isinstance (activation self) Sigmoid then
    y0 <- load_fast "y" y ;;
    let a := clip (eps self) (one - eps self) y0 in
    Ok (t_log (t_div a (scalar_sub one a)))
  else if isinstance (activation self) Tanh then
    y0 <- load_fast "y" y ;;
    let a := div_scalar (add_scalar y0 one) (of_nat 2) in
    let a := clip (eps self) (one - eps self) a in
    Ok (scalar_mul lit_0_5 (t_log (t_div a (scalar_sub one a))))
  else if isinstance (activation self) ReLU then
    y0 <- load_fast "y" y ;;
    let y := Some (clip_min zero y0) in
    load_fast "y" y
  else if isinstance (activation self) Softmax then
    y0 <- load_fast "y" y ;;
    Ok (t_log y0)
  else Raise UnsupportedActivation.

(** Lines 60-65. *)
Definition bregman_loss (self : LocoLayer) (x y : Tensor S) : Result (Vec S) :=
  let pre_act := flatten (call_module (module self) x) in
  a <- _pseudo_inverse self y ;;
  let a := flatten a in
  F <- getitem function_mapping (Instance (activation self)) ;;
  F_pre_act <- F pre_act ;;
  F_a <- F a ;;
  Ok (v_sub (v_sub F_pre_act F_a)
            (einsum_bf_bf_b (activation_call (activation self) a) (t_sub pre_act a))).

End Layer.

Arguments Activation S : clear implicits.
Arguments PyObj S : clear implicits.
Arguments Param S : clear implicits.
Arguments NnModule S : clear implicits.
Arguments LocoLayer S : clear implicits.

(** ** The trainer *)

Inductive VariantTag : Type := LocoPropS | LocoPropM.

Section Trainer.
Context {S : Type} {A : Arith S}.
Local Open Scope scalar_scope.

(** A layer of the [nn.Sequential] model: [isinstance(layer, LocoLayer)]
    holds of [LocoL] only. *)
Inductive Layer : Type :=
| LocoL (l : LocoLayer S)
| PlainL (m : NnModule S).

Definition is_LocoLayer (layer : Layer) : bool :=
  match layer with
  | LocoL _ => true
  | PlainL _ => false
  end.

(** [layer.parameters()]. *)
Definition layer_parameters (layer : Layer) : list (Param S) :=
  match layer with
  | LocoL l => loco_parameters l
  | PlainL m => parameters m
  end.

(** [layer(curr)]. *)
Definition layer_call (layer : Layer) (curr : Tensor S) : Result (Tensor S) :=
  match layer with
  | LocoL l => forward l (Some curr) None
  | PlainL m => Ok (call_module m curr)
  end.

(** An optimizer instance: the learning rate of its first parameter
    group and the rest of its state. *)
Record Optimizer : Type := {
  lr : S;
  buffers : list (Tensor S)
}.

Definition set_lr (opt : Optimizer) (v : S) : Optimizer :=
  {| lr := v; buffers := buffers opt |}.

(** The collaborators the trainer relies on without looking inside:
    - [backward_fails loss_fn model hiddens xs ys]: whether
      [hidden_loss.backward()] raises its [RuntimeError], which it does
      when no tensor that requires a gradient contributes to the loss;
    - [backward_hidden loss_fn model xs ys i]: the [.grad] that
      [hidden_loss.backward()] leaves on the pre-activation recorded at
      index [i], [None] when no gradient reaches it;
    - [backward_params layer inp target]: the parameter gradients that
      [loss.backward()] computes for the mean Bregman loss of [layer];
    - [opt_step opt params grads]: [opt.step()]. *)
Record Engine : Type := {
  backward_fails :
    (Tensor S -> Tensor S -> S) -> list Layer -> list (option (Tensor S)) ->
    Tensor S -> Tensor S -> bool;
  backward_hidden :
    (Tensor S -> Tensor S -> S) -> list Layer -> Tensor S -> Tensor S -> nat -> option (Tensor S);
  backward_params : LocoLayer S -> Tensor S -> Tensor S -> list (Tensor S);
  opt_step : Optimizer -> list (Param S) -> list (Tensor S) -> Optimizer * list (Param S)
}.

Record LocopropTrainer : Type := {
  model : list Layer;
  loss_fn : Tensor S -> Tensor S -> S;
  learning_rate : S;
  local_iterations : nat;
  variant : VariantTag;
  momentum : S;
  correction : S;
  opts : list (option Optimizer);
  grads : list (option (Tensor S));
  _step : nat
}.

Definition with_step (self : LocopropTrainer) (n : nat) : LocopropTrainer :=
  {| model := model self; loss_fn := loss_fn self; learning_rate := learning_rate self;
     local_iterations := local_iterations self; variant := variant self;
     momentum := momentum self; correction := correction self;
     opts := opts self; grads := grads self; _step := n |}.

Definition with_grads (self : LocopropTrainer) (gs : list (option (Tensor S))) : LocopropTrainer :=
  {| model := model self; loss_fn := loss_fn self; learning_rate := learning_rate self;
     local_iterations := local_iterations self; variant := variant self;
     momentum := momentum self; correction := correction self;
     opts := opts self; grads := gs; _step := _step self |}.

Definition with_model (self : LocopropTrainer) (layers : list Layer) : LocopropTrainer :=
  {| model := layers; loss_fn := loss_fn self; learning_rate := learning_rate self;
     local_iterations := local_iterations self; variant := variant self;
     momentum := momentum self; correction := correction self;
     opts := opts self; grads := grads self; _step := _step self |}.

Definition with_opts (self : LocopropTrainer) (os : list (option Optimizer)) : LocopropTrainer :=
  {| model := model self; loss_fn := loss_fn self; learning_rate := learning_rate self;
     local_iterations := local_iterations self; variant := variant self;
     momentum := momentum self; correction := correction self;
     opts := os; grads := grads self; _step := _step self |}.

(** *** Construction, lines 83-108 *)

(** Lines 93-95. *)
Definition trainable_params (layer : Layer) : nat :=
  list_sum (map (@numel S) (filter (@requires_grad S) (layer_parameters layer))).

(** One call of [warnings.warn], with the layer its message names. *)
Inductive Warning : Type := UserWarning (layer : Layer).

(** Line 96: the test under which the constructor warns. *)
Definition warns (layer : Layer) : bool :=
  Nat.ltb 0 (trainable_params layer) && negb (is_LocoLayer layer).

(** Lines 101-106: the slot appended for one layer. *)
Definition slot_of (optimizer_class : list (Param S) -> Optimizer) (layer : Layer)
    : option Optimizer :=
  if is_LocoLayer layer && Nat.ltb 0 (trainable_params layer)
  then Some (optimizer_class (layer_parameters layer)) else None.

(** Lines 92-106: the loop over the layers, appending to [self.opts]. *)
Fixpoint init_loop (optimizer_class : list (Param S) -> Optimizer) (layers : list Layer)
    (opts_acc : list (option Optimizer)) (warned : list Warning)
    : list (option Optimizer) * list Warning :=
  match layers with
  | [] => (opts_acc, warned)
  | layer :: rest =>
      let warned := if warns layer then warned ++ [UserWarning layer] else warned in
      let opts_acc := opts_acc ++ [slot_of optimizer_class layer] in
      init_loop optimizer_class rest opts_acc warned
  end.

(** The constructor: the new trainer and the warnings it emitted. *)
Definition __init__ (model0 : list Layer) (loss_fn0 : Tensor S -> Tensor S -> S)
    (optimizer_class : list (Param S) -> Optimizer) (learning_rate0 : S)
    (local_iterations0 : nat) (variant0 : VariantTag) (momentum0 correction0 : S)
    : LocopropTrainer * list Warning :=
  let '(opts0, warned) := init_loop optimizer_class model0 [] [] in
  ({| model := model0; loss_fn := loss_fn0; learning_rate := learning_rate0;
      local_iterations := local_iterations0; variant := variant0;
      momentum := momentum0; correction := correction0;
      opts := opts0; grads := []; _step := 0 |}, warned).

(** *** [step], lines 110-169 *)

(** Lines 116-126: the forward pass that records every layer's input
    and the pre-activation of every layer that has an optimizer.
    [curr.detach()] is recorded as the value of [curr]; which recorded
    inputs share their storage is read off the layers
    ([shares_storage]). *)
Fixpoint forward_loop (items : list (Layer * option Optimizer)) (curr : Tensor S)
    (inps : list (Tensor S)) (hiddens : list (option (Tensor S)))
    : Result (Tensor S * list (Tensor S) * list (option (Tensor S))) :=
  match items with
  | [] => Ok (curr, inps, hiddens)
  | (layer, opt) :: rest =>
      let inps := inps ++ [curr] in
      match opt, layer with
      | Some _, LocoL l =>
          let h := hidden l curr in
          let hiddens := hiddens ++ [Some h] in
          curr <- forward l None (Some h) ;;
          forward_loop rest curr inps hiddens
      | _, _ =>
          let hiddens := hiddens ++ [None] in
          curr <- layer_call layer curr ;;
          forward_loop rest curr inps hiddens
      end
  end.

(** Line 131: the gradients read off the recorded pre-activations. *)
Definition observed_grads (engine : Engine) (self : LocopropTrainer) (xs ys : Tensor S)
    (hiddens : list (option (Tensor S))) : list (option (Tensor S)) :=
  map (fun ih : nat * option (Tensor S) =>
         match snd ih with
         | None => None
         | Some _ => backward_hidden engine (loss_fn self) (model self) xs ys (fst ih)
         end)
      (combine (seq 0 (length hiddens)) hiddens).

(** Line 136, one element of the comprehension. *)
Definition smooth (mom debias : S) (g m : option (Tensor S)) : Result (option (Tensor S)) :=
  match m with
  | None => Ok None
  | Some m =>
      match g with
      | None => Raise (TypeError "unsupported operand type(s) for *: 'float' and 'NoneType'")
      | Some g =>
          Ok (Some (div_scalar (t_add (scalar_mul (one - mom) g) (scalar_mul mom m)) debias))
      end
  end.

(** Line 136, the comprehension over [zip(grads, self.grads)]. *)
Fixpoint smooth_all (mom debias : S) (gs ms : list (option (Tensor S)))
    : Result (list (option (Tensor S))) :=
  match gs, ms with
  | g :: gs', m :: ms' =>
      v <- smooth mom debias g m ;;
      vs <- smooth_all mom debias gs' ms' ;;
      Ok (v :: vs)
  | _, _ => Ok []
  end.

(** Line 135. *)
Definition debias_of (self : LocopropTrainer) : S :=
  one - spow (one - momentum self) (_step self).

(** Lines 132-136: the value assigned to [self.grads]. *)
Definition update_grads (self : LocopropTrainer) (gs : list (option (Tensor S)))
    : Result (list (option (Tensor S))) :=
  if Nat.eqb (length (grads self)) 0 then Ok gs
  else smooth_all (momentum self) (debias_of self) gs (grads self).

(** Lines 138-139. *)
Definition enable_grad_param (p : Param S) : Param S :=
  {| data := data p; requires_grad := true |}.

Definition enable_grad_module (m : NnModule S) : NnModule S :=
  {| parameters := map enable_grad_param (parameters m); call := call m;
     returns_input := returns_input m |}.

Definition enable_grad_activation (a : Activation S) : Activation S :=
  match a with
  | Builtin c => Builtin c
  | Custom m => Custom (enable_grad_module m)
  end.

Definition enable_grad (layer : Layer) : Layer :=
  match layer with
  | LocoL l => LocoL {| module := enable_grad_module (module l);
                        activation := enable_grad_activation (activation l);
                        implicit := implicit l; eps := eps l |}
  | PlainL m => PlainL (enable_grad_module m)
  end.

Definition module_with_parameters (m : NnModule S) (ps : list (Param S)) : NnModule S :=
  {| parameters := ps; call := call m; returns_input := returns_input m |}.

(** The layer after [opt.step()] has written the values [ps] into its
    parameters: the first ones are the wrapped module's, the others the
    activation's. *)
Definition with_parameters (layer : LocoLayer S) (ps : list (Param S)) : LocoLayer S :=
  let n := length (parameters (module layer)) in
  {| module := module_with_parameters (module layer) (firstn n ps);
     activation :=
       match activation layer with
       | Builtin c => Builtin c
       | Custom m => Custom (module_with_parameters m (skipn n ps))
       end;
     implicit := implicit layer; eps := eps layer |}.

(** Lines 154-160: the local iterations of one layer.  The optimizer and
    the layer are returned as the loop left them, also when it raises. *)
Fixpoint local_iterations_loop (engine : Engine) (js : list nat) (n : nat) (base_lr : S)
    (opt : Optimizer) (layer : LocoLayer S) (inp post_target : Tensor S)
    : Optimizer * LocoLayer S * Result unit :=
  match js with
  | [] => (opt, layer, Ok tt)
  | j :: js' =>
      let opt := set_lr opt (base_lr * py_max (one - of_nat j / of_nat n) lit_0_25) in
      match bregman_loss layer inp post_target with
      | Raise e => (opt, layer, Raise e)
      | Ok per_example =>
          let loss := mean per_example in
          let gs := backward_params engine layer inp post_target in
          let '(opt, ps) := opt_step engine opt (loco_parameters layer) gs in
          local_iterations_loop engine js' n base_lr opt (with_parameters layer ps)
                                inp post_target
      end
  end.

(** Whether the layer returns the very tensor it is given, so that the
    input recorded for the next layer ([curr.detach()], line 117) shares
    the storage of its own recorded input. *)
Definition layer_returns_input (layer : Layer) : bool :=
  match layer with
  | PlainL m => returns_input m
  | LocoL l =>
      returns_input (module l)
      && (implicit l
          || match activation l with
             | Builtin _ => false
             | Custom m => returns_input m
             end)
  end.

(** Whether the recorded inputs [j] and [k] share their storage: every
    layer from the lower index up to the higher one returns its input. *)
Definition shares_storage (layers : list Layer) (j k : nat) : bool :=
  let between := firstn (Nat.max j k - Nat.min j k) (skipn (Nat.min j k) layers) in
  Nat.eqb (length between) (Nat.max j k - Nat.min j k)
  && forallb layer_returns_input between.

(** [inps[k] += inc] (line 168): the addition is in place, so every
    recorded input that shares the storage of entry [k] changes with
    it. *)
Definition add_in_place (layers : list Layer) (k : nat) (inc : Tensor S)
    (inps : list (Tensor S)) : list (Tensor S) :=
  map (fun jt : nat * Tensor S =>
         if shares_storage layers (fst jt) k then t_add (snd jt) inc else snd jt)
      (combine (seq 0 (length inps)) inps).

(** Lines 166-168: the amount added to [inps[i + 1]]. *)
Definition correction_increment (corr : S) (delta : Tensor S) : Tensor S :=
  let norm' := norm delta + lit_1e_5 in
  div_scalar (scalar_mul (py_min norm' (corr * spow_half (of_nat (size1 delta)))) delta) norm'.

Definition store (self : LocopropTrainer) (i : nat) (opt : Optimizer) (layer : LocoLayer S)
    : LocopropTrainer :=
  with_opts (with_model self (set_nth i (LocoL layer) (model self)))
            (set_nth i (Some opt) (opts self)).

(** Lines 142-168: the body of the loop over the optimizer slots.
    [opt.zero_grad()] has no state to clear here, the parameter
    gradients being passed from [backward_params] to [opt_step]
    directly. *)
Definition update_layer (engine : Engine) (self : LocopropTrainer) (inps : list (Tensor S))
    (i : nat) (opt : option Optimizer) (layer : Layer) (grad : option (Tensor S))
    : LocopropTrainer * list (Tensor S) * Result unit :=
  match opt with
  | None => (self, inps, Ok tt)
  | Some opt =>
  match layer with
  | PlainL _ => (self, inps, Raise InconsistentConfiguration)
  | LocoL layer =>
  match nth_error inps i with
  | None => (self, inps, Raise IndexError)
  | Some inp =>
      let a := hidden layer inp in
      let y := activation_call (activation layer) a in
      match grad with
      | None =>
          (self, inps,
           Raise (TypeError "unsupported operand type(s) for *: 'float' and 'NoneType'"))
      | Some grad =>
          let post_target := t_sub y (scalar_mul (learning_rate self) grad) in
          let base_lr := lr opt in
          let '(opt, layer, r) :=
            local_iterations_loop engine (seq 0 (local_iterations self))
              (local_iterations self) base_lr opt layer inp post_target in
          match r with
          | Raise e => (store self i opt layer, inps, Raise e)
          | Ok _ =>
              let self := store self i (set_lr opt base_lr) layer in
              if (zero <? correction self) && Nat.ltb (i + 1) (length inps) then
                match forward layer (Some inp) None, nth_error inps (i + 1) with
                | Raise e, _ => (self, inps, Raise e)
                | Ok _, None => (self, inps, Raise IndexError)
                | Ok out, Some next =>
                    let delta := t_sub out next in
                    (self,
                     add_in_place (model self) (i + 1)
                       (correction_increment (correction self) delta) inps,
                     Ok tt)
                end
              else (self, inps, Ok tt)
          end
      end
  end
  end
  end.

(** Lines 141-168. *)
Fixpoint local_loop (engine : Engine)
    (items : list (option Optimizer * Layer * option (Tensor S))) (i : nat)
    (self : LocopropTrainer) (inps : list (Tensor S))
    : LocopropTrainer * list (Tensor S) * Result unit :=
  match items with
  | [] => (self, inps, Ok tt)
  | (opt, layer, grad) :: rest =>
      let '(self, inps, r) := update_layer engine self inps i opt layer grad in
      match r with
      | Ok _ => local_loop engine rest (Datatypes.S i) self inps
      | Raise e => (self, inps, Raise e)
      end
  end.

(** Lines 111-139: everything [step] does before the loop over the
    optimizer slots.  The trainer is returned as it stands when the
    phase ends, with the recorded inputs and the global loss when it
    ends normally. *)
Definition prepare (engine : Engine) (self : LocopropTrainer) (xs ys : Tensor S)
    : LocopropTrainer * Result (list (Tensor S) * S) :=
  let self := with_step self (_step self + 1) in
  match forward_loop (combine (model self) (opts self)) xs [] [] with
  | Raise e => (self, Raise e)
  | Ok (curr, inps, hiddens) =>
      let hidden_loss := loss_fn self curr ys in
      if backward_fails engine (loss_fn self) (model self) hiddens xs ys
      then (self, Raise backward_error)
      else
      match update_grads self (observed_grads engine self xs ys hiddens) with
      | Raise e => (self, Raise e)
      | Ok gs =>
          let self := with_grads self gs in
          let self := with_model self (map enable_grad (model self)) in
          (self, Ok (inps, hidden_loss))
      end
  end.

(** Lines 110-169. *)
Definition step (engine : Engine) (self : LocopropTrainer) (xs ys : Tensor S)
    : LocopropTrainer * Result S :=
  match prepare engine self xs ys with
  | (self, Raise e) => (self, Raise e)
  | (self, Ok (inps, hidden_loss)) =>
      let '(self, _, r) :=
        local_loop engine (zip3 (opts self) (model self) (grads self)) 0 self inps in
      match r with
      | Raise e => (self, Raise e)
      | Ok _ => (self, Ok hidden_loss)
      end
  end.

(** For a loss that is differentiable in the model's output and a batch
    that requires no gradient: no pre-activation was marked (line 120)
    and no parameter of the model requires a gradient. *)
Definition nothing_requires_grad (layers : list Layer)
    (hiddens : list (option (Tensor S))) : bool :=
  negb (existsb (fun h : option (Tensor S) =>
                   match h with Some _ => true | None => false end) hiddens
        || existsb (fun layer => existsb (@requires_grad S) (layer_parameters layer)) layers).

(** The attributes that the loop over the optimizer slots never
    assigns: a relation between the trainer before and after. *)
Definition same_settings (s t : LocopropTrainer) : Prop :=
  _step t = _step s /\ grads t = grads s /\ correction t = correction s
  /\ momentum t = momentum s /\ learning_rate t = learning_rate s
  /\ local_iterations t = local_iterations s.

(** The lists of a trainer are aligned by index: one slot per layer, and
    one gradient slot per layer once a call of [step] has stored them. *)
Definition aligned (t : LocopropTrainer) : Prop :=
  length (opts t) = length (model t)
  /\ (grads t = [] \/ length (grads t) = length (model t)).

(** Every slot that holds an optimizer stands at the index of a
    [LocoLayer]. *)
Definition consistent (t : LocopropTrainer) : Prop :=
  Forall (fun ol : option Optimizer * Layer =>
            fst ol = None \/ is_LocoLayer (snd ol) = true)
         (combine (opts t) (model t)).

End Trainer.

Arguments Layer S : clear implicits.
Arguments Optimizer S : clear implicits.
Arguments Engine S : clear implicits.
Arguments LocopropTrainer S : clear implicits.
Arguments Warning S : clear implicits.

(** ** The two readings of the arithmetic *)

(** Exact arithmetic over the real numbers. *)
Definition R_ltb (x y : R) : bool := if Rlt_dec x y then true else false.

#[export] Instance R_arith : Arith R := {|
  zero := 0%R;
  one := 1%R;
  sadd := Rplus;
  ssub := Rminus;
  smul := Rmult;
  sdiv := Rdiv;
  sopp := Ropp;
  sexp := Rtrigo_def.exp;
  slog := Rpower.ln;
  ssqrt := R_sqrt.sqrt;
  spow_half := R_sqrt.sqrt;
  sltb := R_ltb;
  of_nat := INR;
  lit_1e_5 := (1 / 100000)%R;
  lit_0_25 := (1 / 4)%R;
  lit_0_5 := (1 / 2)%R
|}.

(** IEEE 754 binary64, the arithmetic of Python floats and of
    [torch.float64] tensors.  The exponential and the logarithm are the
    platform's; they are parameters here. *)
Section Binary64.
Variables libm_exp libm_log : float -> float.

Definition float_arith : Arith float := {|
  zero := 0%float;
  one := 1%float;
  sadd := PrimFloat.add;
  ssub := PrimFloat.sub;
  smul := PrimFloat.mul;
  sdiv := PrimFloat.div;
  sopp := PrimFloat.opp;
  sexp := libm_exp;
  slog := libm_log;
  ssqrt := PrimFloat.sqrt;
  spow_half := PrimFloat.sqrt;
  sltb := PrimFloat.ltb;
  of_nat := fun n => PrimFloat.of_uint63 (Uint63.of_Z (Z.of_nat n));
  lit_1e_5 := 0x1.4f8b588e368f1p-17%float;
  lit_0_25 := 0.25%float;
  lit_0_5 := 0.5%float
|}.
End Binary64.

(** The equations between constants that the proofs below use; they hold
    in both readings. *)
Class ArithLaws (S : Type) (A : Arith S) : Prop := {
  ltb_zero_zero : sltb zero zero = false;
  sub_one_zero : ssub one zero = one;
  mul_one_one : smul one one = one;
  sub_one_one : ssub one one = zero
}.

(** ** Concrete inputs *)

Section Inputs.
Context {S : Type} {A : Arith S}.

(** A one-feature linear transform without bias: [x * w]. *)
Definition scale_module (w : S) : NnModule S :=
  {| parameters := [ {| data := [[w]]; requires_grad := true |} ];
     call := fun ps x =>
               match ps with
               | p :: _ => t_map (fun v => smul v (hd zero (hd [] (data p)))) x
               | [] => x
               end;
     returns_input := false |}.

(** [nn.Identity()]. *)
Definition identity_module : NnModule S :=
  {| parameters := []; call := fun _ x => x; returns_input := true |}.

(** An activation with one trainable parameter [w], as [nn.PReLU] has:
    entries below zero are scaled by [w]. *)
Definition prelu (w : S) : Activation S :=
  Custom {| parameters := [ {| data := [[w]]; requires_grad := true |} ];
            call := fun ps x =>
                      match ps with
                      | p :: _ =>
                          t_map (fun v => if sltb v zero
                                          then smul (hd zero (hd [] (data p))) v else v) x
                      | [] => x
                      end;
            returns_input := false |}.

(** [LocoLayer(nn.Identity(), nn.PReLU())]: its only parameter is the
    activation's. *)
Definition prelu_layer (w : S) : LocoLayer S :=
  {| module := identity_module; activation := prelu w; implicit := false;
     eps := lit_1e_5 |}.

Definition relu_layer (w : S) : LocoLayer S :=
  {| module := scale_module w; activation := Builtin ReLU; implicit := false;
     eps := lit_1e_5 |}.

Definition sigmoid_layer (w : S) : LocoLayer S :=
  {| module := scale_module w; activation := Builtin Sigmoid; implicit := false;
     eps := lit_1e_5 |}.

(** The sum of the entries of the output. *)
Definition sum_loss (out ys : Tensor S) : S := total (concat out).

(** Plain gradient descent, and an automatic differentiation that
    reports the gradient [[[1]]] on every recorded pre-activation and
    fails when nothing requires a gradient. *)
Definition sgd_engine : Engine S :=
  {| backward_fails := fun _ layers hiddens _ _ => nothing_requires_grad layers hiddens;
     backward_hidden := fun _ _ _ _ _ => Some [[one]];
     backward_params := fun _ _ _ => [[[one]]];
     opt_step := fun opt ps gs =>
       (opt, map2 (fun p g => {| data := t_sub (data p) (scalar_mul (lr opt) g);
                                 requires_grad := requires_grad p |}) ps gs) |}.

Definition new_optimizer (ps : list (Param S)) : Optimizer S :=
  {| lr := lit_1e_5; buffers := [] |}.

(** [LocopropTrainer(model, loss, local_iterations=n, momentum=0, correction=c)]. *)
Definition make_trainer (layers : list (Layer S)) (n : nat) (c : S) : LocopropTrainer S :=
  fst (__init__ layers sum_loss new_optimizer (of_nat 10) n LocoPropM zero c).

(** One trainable layer, no local iterations. *)
Definition one_layer_trainer : LocopropTrainer S :=
  make_trainer [LocoL (relu_layer one)] 0 zero.

(** Two trainable layers, no local iterations, [correction = 0.25]. *)
Definition two_layer_trainer : LocopropTrainer S :=
  make_trainer [LocoL (relu_layer one); LocoL (relu_layer one)] 0 lit_0_25.

(** A trainer whose slot list was corrupted after construction: the
    plain layer at index 1 holds an optimizer. *)
Definition corrupted_trainer : LocopropTrainer S :=
  let t := make_trainer [PlainL identity_module; PlainL (scale_module one);
                         LocoL (relu_layer one)] 5 zero in
  with_opts t (set_nth 1 (Some (new_optimizer [])) (opts t)).

Definition batch : Tensor S := [[one]].
End Inputs.

(** * Properties *)

Section LayerProperties.
Context {S : Type} {A : Arith S}.

(** C8: [forward] called without input and without pre-activation raises
    [InvalidArgument]; called with exactly one of the two it returns a
    value (the activation of the pre-activation, or the pre-activation
    itself for an implicit layer), so it does not raise. *)
Theorem forward_needs_one_argument (self : LocoLayer S) :
  forward self None None = Raise InvalidArgument
  /\ (forall x : Tensor S,
        forward self (Some x) None
        = Ok (if implicit self then call_module (module self) x
              else activation_call (activation self) (call_module (module self) x)))
  /\ (forall h : Tensor S,
        forward self None (Some h)
        = Ok (if implicit self then h else activation_call (activation self) h)).
Proof.
  unfold forward.
  split; [reflexivity | split; intros v; destruct (implicit self); reflexivity].
Qed.

(** C9: [forward] called with both the input and the pre-activation does
    not raise; its result is computed from the pre-activation alone: the
    value does not mention the input nor the wrapped transform, and it is
    the value of the call that passes the pre-activation only. *)
Theorem forward_ignores_input_when_hidden_given (self : LocoLayer S) (x h : Tensor S) :
  forward self (Some x) (Some h)
  = Ok (if implicit self then h else activation_call (activation self) h)
  /\ forward self (Some x) (Some h) = forward self None (Some h).
Proof.
  unfold forward. destruct (implicit self); split; reflexivity.
Qed.

(** Whatever the class of a built-in activation, one of the four
    [isinstance] tests of [_pseudo_inverse] succeeds. *)
Lemma isinstance_builtin (c : ActivationClass) :
  isinstance (S := S) (Builtin c) c = true.
Proof. destruct c; reflexivity. Qed.

(** C1: for each of the four supported activation classes and every
    target, [_pseudo_inverse] raises [UnboundLocalError] on its first
    read of [y]; it returns no pre-activation, so the round trip
    [pseudoInverse(activation(preAct)) = preAct] does not hold of the
    code. *)
Theorem pseudo_inverse_reads_unbound_y (m : NnModule S) (c : ActivationClass)
    (imp : bool) (e : S) (target : Tensor S) :
  _pseudo_inverse {| module := m; activation := Builtin c; implicit := imp; eps := e |} target
  = Raise (UnboundLocalError "y").
Proof. destruct c; reflexivity. Qed.

(** X1: the lookup of line 64 uses the activation instance as the key of a
    dictionary keyed by classes: it raises [KeyError] for every layer. *)
Lemma function_mapping_lookup_fails (self : LocoLayer S) :
  getitem function_mapping (Instance (activation self)) = Raise KeyError.
Proof. reflexivity. Qed.

(** C2: for each of the four supported activation classes and every
    input and target, [bregman_loss] raises the [UnboundLocalError] of
    [_pseudo_inverse]; it returns no divergence value. *)
Theorem bregman_loss_raises (m : NnModule S) (c : ActivationClass)
    (imp : bool) (e : S) (x y : Tensor S) :
  bregman_loss {| module := m; activation := Builtin c; implicit := imp; eps := e |} x y
  = Raise (UnboundLocalError "y").
Proof. destruct c; reflexivity. Qed.

End LayerProperties.

Section ConstructionProperties.
Context {S : Type} {A : Arith S}.

Lemma init_loop_spec (oc : list (Param S) -> Optimizer S) (layers : list (Layer S)) :
  forall acc warned,
    init_loop oc layers acc warned
    = (acc ++ map (slot_of oc) layers,
       warned ++ map (@UserWarning S) (filter warns layers)).
Proof.
  induction layers as [|layer rest IH]; intros acc warned; simpl.
  - now rewrite !app_nil_r.
  - rewrite IH. destruct (warns layer); simpl; now rewrite <- !app_assoc.
Qed.

(** C7: the constructor's slot list has one entry per layer, in layer
    order: an optimizer built from the layer's parameters when the layer
    is a [LocoLayer] with trainable parameters, [None] otherwise.  It
    calls [warnings.warn] once for each layer that has trainable
    parameters and is not a [LocoLayer], and for no other layer; such a
    layer's slot is [None]. *)
Theorem init_builds_aligned_slots (layers : list (Layer S))
    (loss : Tensor S -> Tensor S -> S) (oc : list (Param S) -> Optimizer S)
    (rate : S) (iters : nat) (v : VariantTag) (mom corr : S) :
  let '(trainer, warned) := __init__ layers loss oc rate iters v mom corr in
  model trainer = layers
  /\ length (opts trainer) = length layers
  /\ (forall i layer, nth_error layers i = Some layer ->
        nth_error (opts trainer) i
        = Some (if is_LocoLayer layer && Nat.ltb 0 (trainable_params layer)
                then Some (oc (layer_parameters layer)) else None))
  /\ (forall i layer, nth_error layers i = Some layer ->
        Nat.ltb 0 (trainable_params layer) = true -> is_LocoLayer layer = false ->
        nth_error (opts trainer) i = Some None)
  /\ warned
     = map (@UserWarning S)
         (filter (fun layer => Nat.ltb 0 (trainable_params layer) && negb (is_LocoLayer layer))
                 layers)
  /\ length (filter (fun o => match o with Some _ => true | None => false end) (opts trainer))
     = length (filter (fun layer => is_LocoLayer layer && Nat.ltb 0 (trainable_params layer))
                      layers).
Proof.
  unfold __init__. rewrite init_loop_spec. simpl.
  assert (Hnth : forall i layer, nth_error layers i = Some layer ->
            nth_error (map (slot_of oc) layers) i = Some (slot_of oc layer)).
  { intros i layer H. now rewrite nth_error_map, H. }
  repeat split.
  - now rewrite length_map.
  - intros i layer H. now apply Hnth.
  - intros i layer H Ht Hl. rewrite (Hnth _ _ H). unfold slot_of. now rewrite Hl.
  - clear Hnth. induction layers as [|layer rest IH]; simpl; [reflexivity|].
    unfold slot_of at 1.
    destruct (is_LocoLayer layer && Nat.ltb 0 (trainable_params layer)); simpl;
      now rewrite IH.
Qed.

End ConstructionProperties.

(** ** The optimizer-slot loop *)

Ltac break_match :=
  match goal with
  | |- context [match ?x with _ => _ end] => destruct x eqn:?
  end.

Section LoopProperties.
Context {S : Type} {A : Arith S}.
Variable engine : Engine S.

(** The forward pass of [step] raises nothing. *)
Lemma forward_loop_returns (items : list (Layer S * option (Optimizer S))) :
  forall curr inps hiddens, exists r, forward_loop items curr inps hiddens = Ok r.
Proof.
  induction items as [|[layer opt] rest IH]; intros curr inps hiddens; simpl.
  - eauto.
  - destruct opt as [o|], layer as [l|m]; simpl; unfold forward;
      try destruct (implicit l); simpl; apply IH.
Qed.

Lemma same_settings_refl (s : LocopropTrainer S) : same_settings s s.
Proof. repeat split. Qed.

Lemma same_settings_trans (s t u : LocopropTrainer S) :
  same_settings s t -> same_settings t u -> same_settings s u.
Proof.
  unfold same_settings. intros (a & b & c & d & e & f) (a' & b' & c' & d' & e' & f').
  repeat split; congruence.
Qed.

Lemma update_layer_settings (self : LocopropTrainer S) (inps : list (Tensor S)) (i : nat)
    (opt : option (Optimizer S)) (layer : Layer S) (grad : option (Tensor S)) :
  same_settings self (fst (fst (update_layer engine self inps i opt layer grad))).
Proof.
  unfold update_layer.
  repeat (break_match; simpl); try apply same_settings_refl; repeat split.
Qed.

Lemma local_loop_settings (items : list (option (Optimizer S) * Layer S * option (Tensor S))) :
  forall i self inps,
    same_settings self (fst (fst (local_loop engine items i self inps))).
Proof.
  induction items as [|[[opt layer] grad] rest IH]; intros i self inps; simpl.
  - apply same_settings_refl.
  - pose proof (update_layer_settings self inps i opt layer grad) as H.
    destruct (update_layer engine self inps i opt layer grad) as [[self' inps'] r].
    simpl in H. destruct r as [[]|e]; simpl; [|exact H].
    eapply same_settings_trans; [exact H | apply IH].
Qed.

(** One pass of the body with the guard of line 164 false. *)
Lemma update_layer_without_correction (self : LocopropTrainer S) (inps : list (Tensor S))
    (i : nat) (opt : option (Optimizer S)) (layer : Layer S) (grad : option (Tensor S)) :
  sltb zero (correction self) = false ->
  snd (fst (update_layer engine self inps i opt layer grad)) = inps.
Proof.
  intros Hc. unfold update_layer.
  repeat (break_match; simpl in *; try reflexivity);
    rewrite Hc in *; discriminate.
Qed.

(** C5: with [correction = 0] the loop over the optimizer slots returns
    the list of recorded inputs it was given, entry for entry, whether
    it ends normally or raises. *)
Theorem correction_zero_keeps_inputs (L : ArithLaws A)
    (items : list (option (Optimizer S) * Layer S * option (Tensor S))) :
  forall (i : nat) (self : LocopropTrainer S) (inps : list (Tensor S)),
    correction self = zero ->
    snd (fst (local_loop engine items i self inps)) = inps.
Proof.
  induction items as [|[[opt layer] grad] rest IH]; intros i self inps Hc; simpl.
  - reflexivity.
  - assert (Hlt : sltb zero (correction self) = false)
      by (rewrite Hc; apply ltb_zero_zero).
    pose proof (update_layer_without_correction self inps i opt layer grad Hlt) as Hi.
    pose proof (update_layer_settings self inps i opt layer grad) as (_ & _ & Hs & _).
    destruct (update_layer engine self inps i opt layer grad) as [[self' inps'] r].
    simpl in Hi, Hs. subst inps'.
    destruct r as [[]|e]; simpl; [|reflexivity].
    apply IH. congruence.
Qed.

End LoopProperties.

Section StepProperties.
Context {S : Type} {A : Arith S}.
Variable engine : Engine S.

(** The loop over a list of slots that starts with [pre]: the slots of
    [pre] first, then the others from the state [pre] left. *)
Lemma local_loop_app (pre rest : list (option (Optimizer S) * Layer S * option (Tensor S))) :
  forall i self inps,
    local_loop engine (pre ++ rest) i self inps
    = match local_loop engine pre i self inps with
      | (self', inps', Ok _) => local_loop engine rest (i + length pre) self' inps'
      | (self', inps', Raise e) => (self', inps', Raise e)
      end.
Proof.
  induction pre as [|[[opt layer] grad] pre IH]; intros i self inps; simpl.
  - now rewrite Nat.add_0_r.
  - destruct (update_layer engine self inps i opt layer grad) as [[self' inps'] r].
    destruct r as [[]|e]; [|reflexivity].
    rewrite IH. now rewrite Nat.add_succ_r.
Qed.

(** C6: when the loop over the optimizer slots comes to a slot that holds
    an optimizer while the layer at that index is not a [LocoLayer],
    [step] raises [InconsistentConfiguration], and the trainer is left as
    the slots before it left it: nothing is updated for that slot or for
    a later one. *)
Theorem slot_on_plain_layer_raises (self self1 self2 : LocopropTrainer S)
    (xs ys : Tensor S) (inps inps2 : list (Tensor S)) (loss : S)
    (pre rest : list (option (Optimizer S) * Layer S * option (Tensor S)))
    (opt : Optimizer S) (m : NnModule S) (g : option (Tensor S)) :
  prepare engine self xs ys = (self1, Ok (inps, loss)) ->
  zip3 (opts self1) (model self1) (grads self1) = pre ++ (Some opt, PlainL m, g) :: rest ->
  local_loop engine pre 0 self1 inps = (self2, inps2, Ok tt) ->
  step engine self xs ys = (self2, Raise InconsistentConfiguration).
Proof.
  intros Hprep Hzip Hpre. unfold step. rewrite Hprep, Hzip, local_loop_app, Hpre.
  reflexivity.
Qed.

(** The only exception of the gradient smoothing is the [TypeError] of
    line 136. *)
Lemma smooth_all_raise (mom debias : S) (gs : list (option (Tensor S))) :
  forall ms e, smooth_all mom debias gs ms = Raise e -> exists msg, e = TypeError msg.
Proof.
  induction gs as [|g gs IH]; intros ms e H; simpl in H; [discriminate|].
  destruct ms as [|m ms]; [discriminate|].
  destruct m as [m|]; simpl in H.
  - destruct g as [g|]; simpl in H; [|injection H as <-; eauto].
    destruct (smooth_all mom debias gs ms) eqn:E; simpl in H; [discriminate|].
    injection H as <-. eapply IH, E.
  - destruct (smooth_all mom debias gs ms) eqn:E; simpl in H; [discriminate|].
    injection H as <-. eapply IH, E.
Qed.

Lemma update_grads_raise (self : LocopropTrainer S) (gs : list (option (Tensor S))) (e : PyExn) :
  update_grads self gs = Raise e -> exists msg, e = TypeError msg.
Proof.
  unfold update_grads. destruct (Nat.eqb _ _); [discriminate|]. apply smooth_all_raise.
Qed.

(** C10: when [step] raises [InconsistentConfiguration], the trainer it
    leaves behind has the step counter incremented and [self.grads]
    overwritten with the smoothed gradients of this call; neither is
    restored. *)
Theorem failed_step_keeps_counter_and_grads (self self' : LocopropTrainer S)
    (xs ys : Tensor S) :
  step engine self xs ys = (self', Raise InconsistentConfiguration) ->
  _step self' = _step self + 1
  /\ exists curr inps hiddens,
       forward_loop (combine (model self) (opts self)) xs [] [] = Ok (curr, inps, hiddens)
       /\ update_grads (with_step self (_step self + 1))
                       (observed_grads engine self xs ys hiddens)
          = Ok (grads self').
Proof.
  unfold step, prepare. simpl.
  destruct (forward_loop_returns (combine (model self) (opts self)) xs [] [])
    as [[[curr inps] hiddens] Hf].
  rewrite Hf.
  destruct (backward_fails engine _ _ _ _ _); [discriminate|].
  change (observed_grads engine (with_step self (_step self + 1)) xs ys hiddens)
    with (observed_grads engine self xs ys hiddens).
  destruct (update_grads (with_step self (_step self + 1))
              (observed_grads engine self xs ys hiddens)) as [gs|e] eqn:Hg.
  - match goal with
    | |- context [local_loop engine ?items 0 ?s inps] =>
        pose proof (local_loop_settings engine items 0 s inps) as (Hs & Hgr & _);
        destruct (local_loop engine items 0 s inps) as [[s' inps'] r]
    end.
    simpl in Hs, Hgr. destruct r as [[]|e]; intros H; [discriminate|].
    injection H as <- _. split; [exact Hs|].
    exists curr, inps, hiddens. split; [reflexivity|]. now rewrite Hgr.
  - intros H. injection H as _ He. apply update_grads_raise in Hg as [msg ->].
    discriminate.
Qed.

End StepProperties.

(** ** The in-place addition of line 168 *)

Lemma nth_error_indexed {X Y : Type} (f : nat * X -> Y) (l : list X) :
  forall a k x,
    nth_error l k = Some x ->
    nth_error (map f (combine (seq a (length l)) l)) k = Some (f (a + k, x)).
Proof.
  induction l as [|y l IH]; intros a [|k] x H; simpl in *; try discriminate.
  - injection H as ->. now rewrite Nat.add_0_r.
  - rewrite (IH (Datatypes.S a) k x H). now rewrite Nat.add_succ_comm.
Qed.

(** The entries after the in-place addition of line 168: an entry that
    shares the storage of entry [k] has the increment added, any other
    entry is as it was. *)
Lemma nth_error_add_in_place {S : Type} {A : Arith S} (layers : list (Layer S)) (k : nat)
    (inc : Tensor S) (inps : list (Tensor S)) (j : nat) (t : Tensor S) :
  nth_error inps j = Some t ->
  nth_error (add_in_place layers k inc inps) j
  = Some (if shares_storage layers j k then t_add t inc else t).
Proof.
  intros H. unfold add_in_place.
  now rewrite (nth_error_indexed _ _ 0 _ H).
Qed.

Lemma shares_storage_refl {S : Type} {A : Arith S} (layers : list (Layer S)) (k : nat) :
  shares_storage layers k k = true.
Proof.
  unfold shares_storage. rewrite Nat.max_id, Nat.min_id, Nat.sub_diag. reflexivity.
Qed.

(** ** The inter-layer correction, in exact arithmetic *)

Section CorrectionBound.
Local Open Scope R_scope.

Lemma R_ltb_true (x y : R) : R_ltb x y = true -> x < y.
Proof. unfold R_ltb. destruct (Rlt_dec x y); [auto | discriminate]. Qed.

Lemma R_ltb_false (x y : R) : R_ltb x y = false -> y <= x.
Proof. unfold R_ltb. destruct (Rlt_dec x y); [discriminate | lra]. Qed.

Lemma fold_Rplus_acc (l : list R) :
  forall a, fold_left Rplus l a = a + fold_left Rplus l 0.
Proof.
  induction l as [|x l IH]; intros a; simpl; [lra|].
  rewrite (IH (a + x)), (IH (0 + x)). lra.
Qed.

(** The sum of the squares of the entries, as [norm] computes it. *)
Lemma sum_squares_nonneg (l : list R) :
  0 <= fold_left Rplus (map (fun v => v * v) l) 0.
Proof.
  induction l as [|x l IH]; simpl; [lra|].
  rewrite fold_Rplus_acc. nra.
Qed.

Lemma sum_squares_scaled (k n : R) (l : list R) :
  fold_left Rplus (map (fun v => v * v) (map (fun v => v / n) (map (fun v => k * v) l))) 0
  = (k / n) * (k / n) * fold_left Rplus (map (fun v => v * v) l) 0.
Proof.
  induction l as [|x l IH]; simpl; [lra|].
  rewrite fold_Rplus_acc, IH, (fold_Rplus_acc _ (0 + x * x)).
  unfold Rdiv. ring.
Qed.

Lemma norm_unfold (t : Tensor R) :
  norm t = R_sqrt.sqrt (fold_left Rplus (map (fun v => v * v) (concat t)) 0).
Proof. reflexivity. Qed.

Lemma norm_nonneg (t : Tensor R) : 0 <= norm t.
Proof. rewrite norm_unfold. apply sqrt_pos. Qed.

(** Scaling every entry by [k] and dividing it by [n] scales the norm. *)
Lemma norm_scaled (k n : R) (t : Tensor R) :
  0 <= k -> 0 < n ->
  norm (div_scalar (scalar_mul k t) n) = k / n * norm t.
Proof.
  intros Hk Hn. rewrite !norm_unfold.
  unfold div_scalar, scalar_mul, t_map. simpl.
  rewrite <- !concat_map, sum_squares_scaled.
  assert (Hq : 0 <= k / n).
  { unfold Rdiv. apply Rmult_le_pos; [assumption|]. left. now apply Rinv_0_lt_compat. }
  rewrite sqrt_mult_alt by nra.
  now rewrite sqrt_square.
Qed.

(** The amount of lines 166-168 is no larger than the cap. *)
Lemma correction_increment_bound (c : R) (delta : Tensor R) :
  0 < c ->
  norm (correction_increment c delta) <= c * R_sqrt.sqrt (INR (size1 delta)).
Proof.
  intros Hc. unfold correction_increment.
  cbn [sadd smul spow_half of_nat lit_1e_5 R_arith].
  pose proof (norm_nonneg delta) as Hq.
  pose proof (sqrt_pos (INR (size1 delta))) as Hd.
  set (q := norm delta) in *.
  set (cap := c * R_sqrt.sqrt (INR (size1 delta))).
  assert (Hcap : 0 <= cap) by (unfold cap; nra).
  assert (Hn : 0 < q + 1 / 100000) by lra.
  assert (Hk : 0 <= py_min (q + 1 / 100000) cap /\ py_min (q + 1 / 100000) cap <= cap).
  { unfold py_min. cbn [sltb R_arith]. destruct (R_ltb cap (q + 1 / 100000)) eqn:E.
    - lra.
    - apply R_ltb_false in E. lra. }
  destruct Hk as [Hk0 Hk1].
  rewrite norm_scaled by assumption. fold q.
  set (k := py_min (q + 1 / 100000) cap) in *.
  apply Rle_trans with k; [|exact Hk1].
  unfold Rdiv. rewrite Rmult_assoc.
  rewrite <- (Rmult_1_r k) at 2.
  apply Rmult_le_compat_l; [exact Hk0|].
  apply Rmult_le_reg_l with (q + 1 / 100000); [exact Hn|].
  rewrite <- Rmult_assoc, Rinv_r by lra. lra.
Qed.

(** C4: in exact arithmetic, one pass of the loop body either leaves the
    recorded inputs as they were, or adds one increment, in place, to
    [inps[i + 1]] (and to the entries that share its storage); the norm
    of that increment is at most [correction * sqrt(delta.size(1))],
    where [delta] is the difference between the layer's output and
    [inps[i + 1]].  The second case occurs with [correction > 0] only. *)
Theorem nudge_norm_bounded (engine : Engine R) (self : LocopropTrainer R)
    (inps : list (Tensor R)) (i : nat) (opt : option (Optimizer R)) (layer : Layer R)
    (grad : option (Tensor R)) :
  let self' := fst (fst (update_layer engine self inps i opt layer grad)) in
  let inps' := snd (fst (update_layer engine self inps i opt layer grad)) in
  inps' = inps
  \/ exists next out : Tensor R,
       let inc := correction_increment (correction self) (t_sub out next) in
       nth_error inps (i + 1) = Some next
       /\ 0 < correction self
       /\ inps' = add_in_place (model self') (i + 1) inc inps
       /\ nth_error inps' (i + 1) = Some (t_add next inc)
       /\ norm inc <= correction self * R_sqrt.sqrt (INR (size1 (t_sub out next))).
Proof.
  unfold update_layer.
  repeat (break_match; simpl in *; try (left; reflexivity)).
  right.
  match goal with
  | H : (_ && _)%bool = true |- _ => apply andb_prop in H as [Hc _]; apply R_ltb_true in Hc
  end.
  eexists _, _. repeat split; try eassumption.
  - erewrite nth_error_add_in_place by eassumption.
    now rewrite shares_storage_refl.
  - now apply correction_increment_bound.
Qed.

End CorrectionBound.

(** ** Gradient smoothing with [momentum = 0] *)

Section Smoothing.
Context {S : Type} {A : Arith S} {L : ArithLaws A}.

Lemma spow_one (n : nat) : spow one n = one.
Proof. induction n as [|n IH]; simpl; [reflexivity|]. rewrite IH. apply mul_one_one. Qed.

(** X5: with [momentum = 0] the denominator of line 135 is zero at every
    step count. *)
Lemma debias_zero_momentum (self : LocopropTrainer S) :
  momentum self = zero -> debias_of self = zero.
Proof.
  intros H. unfold debias_of. rewrite H, sub_one_zero, spow_one. apply sub_one_one.
Qed.

End Smoothing.

Lemma R_laws : ArithLaws R_arith.
Proof.
  split; simpl.
  - unfold R_ltb. destruct (Rlt_dec 0 0); [lra | reflexivity].
  - lra.
  - lra.
  - lra.
Qed.

Lemma float_laws (libm_exp libm_log : float -> float) :
  ArithLaws (float_arith libm_exp libm_log).
Proof. split; reflexivity. Qed.

(** C3: a trainer built with [momentum = 0.0] and one trainable layer,
    stepped twice on a batch whose observed gradient is [[[1.0]]] both
    times, in binary64.  After the first call the slot holds the
    gradient; after the second call it holds [[[inf]]], the gradient
    divided by the zero denominator of line 135, and not the gradient. *)
Theorem ema_momentum_zero_second_step (libm_exp libm_log : float -> float) :
  let FA := float_arith libm_exp libm_log in
  let t0 := one_layer_trainer (A := FA) in
  let t1 := fst (step sgd_engine t0 batch batch) in
  let t2 := fst (step sgd_engine t1 batch batch) in
  momentum t0 = 0%float
  /\ snd (step sgd_engine t0 batch batch) = Ok 1%float
  /\ grads t1 = [Some [[1%float]]]
  /\ snd (step sgd_engine t1 batch batch) = Ok 1%float
  /\ observed_grads sgd_engine t1 batch batch [Some batch] = [Some [[1%float]]]
  /\ debias_of (fst (prepare sgd_engine t1 batch batch)) = 0%float
  /\ grads t2 = [Some [[infinity]]]
  /\ PrimFloat.eqb infinity 1%float = false.
Proof. repeat split; vm_compute; reflexivity. Qed.

(** ** The theorems at concrete inputs, in exact arithmetic *)

Example corrupted_trainer_slots :
  opts (corrupted_trainer (A := R_arith))
  = [None; Some (new_optimizer []); Some (new_optimizer (parameters (scale_module 1%R)))].
Proof. reflexivity. Qed.

Lemma correction_zero_keeps_inputs_witness :
  snd (fst (local_loop (A := R_arith) sgd_engine
              [(Some (new_optimizer []), LocoL (relu_layer 1%R), Some batch);
               (None, PlainL identity_module, None)]
              0 one_layer_trainer [batch; batch]))
  = [batch; batch].
Proof.
  apply (correction_zero_keeps_inputs sgd_engine R_laws). reflexivity.
Defined.

Lemma slot_on_plain_layer_raises_witness :
  step (A := R_arith) sgd_engine corrupted_trainer batch batch
  = (fst (prepare sgd_engine corrupted_trainer batch batch),
     Raise InconsistentConfiguration).
Proof.
  eapply slot_on_plain_layer_raises
    with (pre := [(None, PlainL identity_module, None)]); reflexivity.
Defined.

Example corrupted_step_raises :
  snd (step (A := R_arith) sgd_engine corrupted_trainer batch batch)
  = Raise InconsistentConfiguration.
Proof. reflexivity. Qed.

Lemma failed_step_keeps_counter_and_grads_witness :
  let self' := fst (step (A := R_arith) sgd_engine corrupted_trainer batch batch) in
  _step self' = _step (corrupted_trainer (A := R_arith)) + 1
  /\ exists curr inps hiddens,
       forward_loop (combine (model corrupted_trainer) (opts corrupted_trainer)) batch [] []
       = Ok (curr, inps, hiddens)
       /\ update_grads (with_step corrupted_trainer (_step (corrupted_trainer (A := R_arith)) + 1))
                       (observed_grads sgd_engine corrupted_trainer batch batch hiddens)
          = Ok (grads self').
Proof.
  apply (failed_step_keeps_counter_and_grads sgd_engine corrupted_trainer). reflexivity.
Defined.

(** The failed call of the corrupted trainer: the counter went from 0 to
    1 and the gradient slots from the empty list to this call's
    gradients. *)
Example corrupted_step_state :
  let self' := fst (step (A := R_arith) sgd_engine corrupted_trainer batch batch) in
  _step (corrupted_trainer (A := R_arith)) = 0
  /\ grads (corrupted_trainer (A := R_arith)) = []
  /\ _step self' = 1
  /\ grads self' = [None; None; Some [[1%R]]].
Proof. repeat split. Qed.

Lemma R_ltb_lt (x y : R) : (x < y)%R -> R_ltb x y = true.
Proof. intros H. unfold R_ltb. destruct (Rlt_dec x y); [reflexivity | contradiction]. Qed.
Lemma R_ltb_ge (x y : R) : (y <= x)%R -> R_ltb x y = false.
Proof. intros H. unfold R_ltb. destruct (Rlt_dec x y); [lra | reflexivity]. Qed.

(** A pass of the loop body that applies a correction: the layer's
    output on its recorded input is 1, the recorded input of the next
    layer is 0, and [correction = 0.25]; the entry moves from 0 by a
    positive amount that is at most 0.25. *)
Example nudge_is_applied :
  exists inc : R,
    snd (fst (update_layer (A := R_arith) sgd_engine two_layer_trainer
                [ [[1%R]]; [[0%R]] ] 0
                (Some (new_optimizer [])) (LocoL (relu_layer 1%R)) (Some [[1%R]])))
    = [ [[1%R]]; [[(0 + inc)%R]] ]
    /\ (0 < inc <= 1 / 4)%R.
Proof.
  unfold update_layer. cbn.
  rewrite (@R_ltb_lt 0%R (1 / 4)%R) by lra. cbn.
  rewrite (@R_ltb_ge (1 * 1)%R 0%R) by lra.
  replace (0 + (1 * 1 - 0) * (1 * 1 - 0))%R with 1%R by lra.
  rewrite sqrt_1. unfold py_min. cbn.
  rewrite (@R_ltb_lt (1 / 4 * 1)%R (1 + 1 / 100000)%R) by lra.
  eexists. split; [reflexivity|].
  split.
  - apply Rdiv_lt_0_compat; lra.
  - apply Rmult_le_reg_r with (1 + 1 / 100000)%R; [lra|].
    unfold Rdiv at 1. rewrite Rmult_assoc, Rinv_l by lra. lra.
Qed.

(** ** Further properties of the layer wrapper and of [step] *)

Section FurtherProperties.
Context {S : Type} {A : Arith S}.
Variable engine : Engine S.

(** X2: an activation that is an instance of none of the four classes:
    [_pseudo_inverse] raises [UnsupportedActivation] (line 57), and so
    does [bregman_loss], which calls it. *)
Theorem custom_activation_unsupported (m act : NnModule S)
    (imp : bool) (e : S) (x y : Tensor S) :
  let layer := {| module := m; activation := Custom act; implicit := imp; eps := e |} in
  _pseudo_inverse layer y = Raise UnsupportedActivation
  /\ bregman_loss layer x y = Raise UnsupportedActivation.
Proof. split; reflexivity. Qed.

(** The first call of [step] on a trainer (its [grads] list is empty)
    stores the observed gradients as they are (lines 132-133). *)
Theorem first_call_stores_gradients (self : LocopropTrainer S)
    (gs : list (option (Tensor S))) :
  update_grads (with_grads self []) gs = Ok gs.
Proof. reflexivity. Qed.

End FurtherProperties.

Lemma debias_zero_momentum_witness :
  debias_of (one_layer_trainer (A := R_arith)) = 0%R.
Proof. apply (debias_zero_momentum (L := R_laws)). reflexivity. Defined.

(** ** What [step] does to the trainer *)

Section StepEffects.
Context {S : Type} {A : Arith S}.
Variable engine : Engine S.

Lemma set_nth_same {X : Type} (l : list X) :
  forall i x, nth_error l i = Some x -> set_nth i x l = l.
Proof.
  induction l as [|y l IH]; intros [|i] x H; simpl in *; try discriminate.
  - now injection H as ->.
  - now rewrite IH.
Qed.

Lemma set_nth_length {X : Type} (l : list X) :
  forall i x, length (set_nth i x l) = length l.
Proof.
  induction l as [|y l IH]; intros [|i] x; simpl; try reflexivity. now rewrite IH.
Qed.

Lemma nth_error_set_nth {X : Type} (l : list X) :
  forall i x, i < length l -> nth_error (set_nth i x l) i = Some x.
Proof.
  induction l as [|y l IH]; intros [|i] x H; simpl in *; try lia; [reflexivity|].
  apply IH. lia.
Qed.

Lemma zip3_nth {X Y Z : Type} (xs : list X) :
  forall (ys : list Y) (zs : list Z) k x y z,
    nth_error (zip3 xs ys zs) k = Some (x, y, z) ->
    nth_error xs k = Some x /\ nth_error ys k = Some y /\ nth_error zs k = Some z.
Proof.
  induction xs as [|x0 xs IH]; intros [|y0 ys] [|z0 zs] [|k] x y z H;
    simpl in *; try discriminate.
  - injection H as -> -> ->. auto.
  - now apply IH.
Qed.

(** [bregman_loss] returns for no layer. *)
Lemma bregman_loss_never_returns (layer : LocoLayer S) (x y : Tensor S) :
  exists e, bregman_loss layer x y = Raise e
            /\ e = match activation layer with
                   | Builtin _ => UnboundLocalError "y"
                   | Custom _ => UnsupportedActivation
                   end.
Proof.
  destruct layer as [m a imp e]. destruct a as [c|f]; [destruct c|];
    eexists; split; reflexivity.
Qed.

(** The local iterations of one layer: none when the count is zero;
    otherwise the first one raises, with the learning rate of the first
    iteration set and the layer as it was. *)
Lemma local_iterations_loop_spec (js : list nat) (n : nat) (base_lr : S)
    (opt : Optimizer S) (layer : LocoLayer S) (inp post_target : Tensor S) :
  local_iterations_loop engine js n base_lr opt layer inp post_target
  = match js with
    | [] => (opt, layer, Ok tt)
    | j :: _ =>
        (set_lr opt (smul base_lr (py_max (ssub one (sdiv (of_nat j) (of_nat n))) lit_0_25)),
         layer,
         Raise (match activation layer with
                | Builtin _ => UnboundLocalError "y"
                | Custom _ => UnsupportedActivation
                end))
    end.
Proof.
  destruct js as [|j js]; simpl; [reflexivity|].
  destruct (bregman_loss_never_returns layer inp post_target) as (e & -> & ->).
  reflexivity.
Qed.

Lemma update_layer_model (self : LocopropTrainer S) (inps : list (Tensor S)) (i : nat)
    (opt : option (Optimizer S)) (layer : Layer S) (grad : option (Tensor S)) :
  nth_error (model self) i = Some layer ->
  model (fst (fst (update_layer engine self inps i opt layer grad))) = model self.
Proof.
  intros Hl. unfold update_layer.
  destruct opt as [o|]; [|reflexivity].
  destruct layer as [l|m]; [|reflexivity].
  destruct (nth_error inps i) as [inp|]; [|reflexivity].
  destruct grad as [g|]; [|reflexivity].
  rewrite local_iterations_loop_spec.
  destruct (seq 0 (local_iterations self)); simpl.
  - repeat (break_match; simpl); now apply set_nth_same.
  - now apply set_nth_same.
Qed.

Lemma local_loop_model (items : list (option (Optimizer S) * Layer S * option (Tensor S))) :
  forall i self inps,
    (forall k o l g, nth_error items k = Some (o, l, g) ->
                     nth_error (model self) (i + k) = Some l) ->
    model (fst (fst (local_loop engine items i self inps))) = model self.
Proof.
  induction items as [|[[opt layer] grad] rest IH]; intros i self inps H; simpl.
  - reflexivity.
  - assert (Hl : nth_error (model self) i = Some layer)
      by (rewrite <- (Nat.add_0_r i); apply (H 0 opt layer grad); reflexivity).
    pose proof (update_layer_model self inps i opt grad Hl) as Hm.
    destruct (update_layer engine self inps i opt layer grad) as [[self' inps'] r].
    simpl in Hm. destruct r as [[]|e]; simpl; [|exact Hm].
    rewrite IH; [exact Hm|].
    intros k o l g Hk. rewrite Hm, Nat.add_succ_comm. now apply (H (Datatypes.S k) o l g).
Qed.

(** X6: [step] changes no parameter value.  The model it leaves is the
    model it was given, or that model with every [requires_grad] flag
    set (lines 138-139); when [step] returns, it is the latter. *)
Theorem step_changes_no_parameter_value (self : LocopropTrainer S) (xs ys : Tensor S) :
  let self' := fst (step engine self xs ys) in
  (model self' = model self \/ model self' = map enable_grad (model self))
  /\ (forall v, snd (step engine self xs ys) = Ok v ->
                model self' = map enable_grad (model self)).
Proof.
  unfold step, prepare. simpl.
  destruct (forward_loop (combine (model self) (opts self)) xs [] [])
    as [[[curr inps] hiddens]|e]; [|split; [now left | discriminate]].
  destruct (backward_fails engine _ _ _ _ _); [split; [now left | discriminate]|].
  destruct (update_grads _ _) as [gs|e]; [|split; [now left | discriminate]].
  match goal with
  | |- context [local_loop engine ?items 0 ?s inps] =>
      pose proof (local_loop_model items 0 s inps) as Hm;
      destruct (local_loop engine items 0 s inps) as [[s' inps'] r]
  end.
  simpl in Hm.
  assert (Hs : model s' = map enable_grad (model self)).
  { apply Hm. intros k o l g Hk. now apply zip3_nth in Hk as (_ & Hl & _). }
  destruct r as [[]|e]; simpl; split; auto.
Qed.

(** X7: every call of [step] adds one to the step counter, whether it
    returns or raises, and changes none of [momentum], [correction],
    [learning_rate] and [local_iterations]. *)
Theorem step_counts_every_call (self : LocopropTrainer S) (xs ys : Tensor S) :
  let self' := fst (step engine self xs ys) in
  _step self' = _step self + 1
  /\ momentum self' = momentum self
  /\ correction self' = correction self
  /\ learning_rate self' = learning_rate self
  /\ local_iterations self' = local_iterations self.
Proof.
  unfold step, prepare. simpl.
  destruct (forward_loop (combine (model self) (opts self)) xs [] [])
    as [[[curr inps] hiddens]|e]; [|repeat split].
  destruct (backward_fails engine _ _ _ _ _); [repeat split|].
  destruct (update_grads _ _) as [gs|e]; [|repeat split].
  match goal with
  | |- context [local_loop engine ?items 0 ?s inps] =>
      pose proof (local_loop_settings engine items 0 s inps) as (H1 & _ & H3 & H4 & H5 & H6);
      destruct (local_loop engine items 0 s inps) as [[s' inps'] r]
  end.
  simpl in *. destruct r as [[]|e]; simpl; repeat split; assumption.
Qed.

(** X8: with at least one local iteration, the loop body raises on every
    [LocoLayer] that has an optimizer and a gradient: [UnboundLocalError]
    for an activation of the four classes, [UnsupportedActivation] for
    any other.  The recorded inputs and the layer are as they were; the
    optimizer is left with the learning rate of the first iteration. *)
Theorem trainable_layer_update_raises (self : LocopropTrainer S) (inps : list (Tensor S))
    (i : nat) (opt : Optimizer S) (layer : LocoLayer S) (grad inp : Tensor S) :
  nth_error inps i = Some inp ->
  0 < local_iterations self ->
  update_layer engine self inps i (Some opt) (LocoL layer) (Some grad)
  = (store self i
       (set_lr opt
          (smul (lr opt)
                (py_max (ssub one (sdiv (of_nat 0) (of_nat (local_iterations self))))
                        lit_0_25)))
       layer,
     inps,
     Raise (match activation layer with
            | Builtin _ => UnboundLocalError "y"
            | Custom _ => UnsupportedActivation
            end)).
Proof.
  intros Hi Hn. unfold update_layer. rewrite Hi, local_iterations_loop_spec.
  destruct (local_iterations self) as [|n]; [lia|]. reflexivity.
Qed.

Lemma update_layer_with_optimizer_raises (self : LocopropTrainer S)
    (inps : list (Tensor S)) (i : nat) (opt : Optimizer S) (layer : Layer S)
    (grad : option (Tensor S)) :
  0 < local_iterations self ->
  exists e, snd (update_layer engine self inps i (Some opt) layer grad) = Raise e.
Proof.
  intros Hn. unfold update_layer.
  destruct layer as [l|m]; [|eexists; reflexivity].
  destruct (nth_error inps i) as [inp|]; [|eexists; reflexivity].
  destruct grad as [g|]; [|eexists; reflexivity].
  rewrite local_iterations_loop_spec.
  destruct (local_iterations self) as [|n]; [lia|]. eexists; reflexivity.
Qed.

Lemma local_loop_ok_no_optimizer
    (items : list (option (Optimizer S) * Layer S * option (Tensor S))) :
  forall i self inps self' inps',
    0 < local_iterations self ->
    local_loop engine items i self inps = (self', inps', Ok tt) ->
    Forall (fun it => fst (fst it) = None) items /\ self' = self /\ inps' = inps.
Proof.
  induction items as [|[[opt layer] grad] rest IH]; intros i self inps self' inps' Hn H;
    simpl in H.
  - injection H as <- <-. auto.
  - destruct opt as [o|].
    + destruct (update_layer_with_optimizer_raises self inps i o layer grad Hn) as [e He].
      destruct (update_layer engine self inps i (Some o) layer grad) as [[s1 i1] r].
      simpl in He. subst r. discriminate.
    + simpl in H. apply IH in H as (Hf & -> & ->); auto.
Qed.

(** X9: with at least one local iteration, [step] returns only when no
    slot that its loop visits holds an optimizer: as soon as one does,
    the call raises. *)
Theorem step_returns_only_without_optimizers (self self' : LocopropTrainer S)
    (xs ys : Tensor S) (v : S) :
  0 < local_iterations self ->
  step engine self xs ys = (self', Ok v) ->
  Forall (fun it => fst (fst it) = None)
         (zip3 (opts self') (model self') (grads self')).
Proof.
  intros Hn. unfold step, prepare. simpl.
  destruct (forward_loop (combine (model self) (opts self)) xs [] [])
    as [[[curr inps] hiddens]|e]; [|discriminate].
  destruct (backward_fails engine _ _ _ _ _); [discriminate|].
  destruct (update_grads _ _) as [gs|e]; [|discriminate].
  match goal with
  | |- context [local_loop engine ?items 0 ?s inps] =>
      pose proof (local_loop_ok_no_optimizer items 0 s inps) as Hl;
      destruct (local_loop engine items 0 s inps) as [[s' inps'] r]
  end.
  destruct r as [[]|e]; [|discriminate].
  intros H. injection H as <- _.
  destruct (Hl s' inps' Hn eq_refl) as (Hf & -> & _). exact Hf.
Qed.

End StepEffects.

(** ** The gradient slots *)

Section GradientSlots.
Context {S : Type} {A : Arith S}.

Lemma smooth_all_length (mom debias : S) (gs : list (option (Tensor S))) :
  forall ms r, smooth_all mom debias gs ms = Ok r ->
               length r = Nat.min (length gs) (length ms).
Proof.
  induction gs as [|g gs IH]; intros [|m ms] r H; simpl in *;
    try (injection H as <-; reflexivity).
  destruct (smooth mom debias g m); simpl in H; [|discriminate].
  destruct (smooth_all mom debias gs ms) eqn:E; simpl in H; [|discriminate].
  injection H as <-. simpl. now rewrite (IH ms _ E).
Qed.

Lemma smooth_all_none (mom debias : S) (gs : list (option (Tensor S))) :
  forall ms r i,
    smooth_all mom debias gs ms = Ok r ->
    nth_error ms i = Some None -> i < length gs ->
    nth_error r i = Some None.
Proof.
  induction gs as [|g gs IH]; intros [|m ms] r i H Hm Hi; simpl in *;
    try lia; try (destruct i; discriminate).
  destruct (smooth mom debias g m) as [v|] eqn:Ev; simpl in H; [|discriminate].
  destruct (smooth_all mom debias gs ms) eqn:E; simpl in H; [|discriminate].
  injection H as <-. destruct i as [|i]; simpl in *.
  - injection Hm as ->. simpl in Ev. now injection Ev as <-.
  - apply (IH ms); auto. lia.
Qed.

(** X10: a gradient slot that is [None] stays [None] at every later
    call, also when the call observes a gradient for it (line 136 tests
    the stored slot, not the fresh gradient). *)
Theorem none_slot_stays_none (self : LocopropTrainer S)
    (gs gs' : list (option (Tensor S))) (i : nat) :
  update_grads self gs = Ok gs' ->
  nth_error (grads self) i = Some None ->
  i < length gs ->
  nth_error gs' i = Some None.
Proof.
  unfold update_grads. intros H Hm Hi.
  destruct (grads self) as [|m ms] eqn:Eg; [destruct i; discriminate|].
  simpl in H. eapply smooth_all_none; eauto.
Qed.

Lemma smooth_all_missing (mom debias : S) (gs : list (option (Tensor S))) :
  forall ms i m,
    nth_error ms i = Some (Some m) -> nth_error gs i = Some None ->
    smooth_all mom debias gs ms = Raise (TypeError float_times_none).
Proof.
  induction gs as [|g gs IH]; intros [|m0 ms] i m Hm Hg;
    try (destruct i; discriminate).
  destruct i as [|i]; simpl in *.
  - injection Hm as ->. injection Hg as ->. reflexivity.
  - rewrite (IH ms i m Hm Hg).
    destruct m0 as [m0|]; [destruct g as [g|]|]; reflexivity.
Qed.

(** X11: when a slot holds a smoothed gradient and the call observes no
    gradient for it, the smoothing of line 136 raises [TypeError] (it
    multiplies a float by [None]). *)
Theorem missing_gradient_raises (self : LocopropTrainer S)
    (gs : list (option (Tensor S))) (i : nat) (m : Tensor S) :
  nth_error (grads self) i = Some (Some m) ->
  nth_error gs i = Some None ->
  update_grads self gs = Raise (TypeError float_times_none).
Proof.
  unfold update_grads. intros Hm Hg.
  destruct (grads self) as [|m0 ms] eqn:Eg; [destruct i; discriminate|].
  simpl. eapply smooth_all_missing; eauto.
Qed.

End GradientSlots.

(** ** The forward pass of [step] *)

Section ForwardPass.
Context {S : Type} {A : Arith S}.

Lemma layer_call_returns (layer : Layer S) (x : Tensor S) :
  exists y, layer_call layer x = Ok y.
Proof.
  destruct layer as [l|m]; simpl; [|eauto].
  unfold forward. destruct (implicit l); eauto.
Qed.

(** The slot of [hiddens] that lines 118-125 append for one layer. *)
Lemma forward_loop_records (items : list (Layer S * option (Optimizer S))) :
  forall c0 inps0 hid0 curr inps hiddens,
    forward_loop items c0 inps0 hid0 = Ok (curr, inps, hiddens) ->
    exists t h,
      inps = inps0 ++ t /\ hiddens = hid0 ++ h
      /\ length t = length items /\ length h = length items
      /\ nth_error (t ++ [curr]) 0 = Some c0
      /\ forall i layer opt,
           nth_error items i = Some (layer, opt) ->
           exists x y,
             nth_error t i = Some x
             /\ layer_call layer x = Ok y
             /\ nth_error (t ++ [curr]) (i + 1) = Some y
             /\ nth_error h i
                = Some (match opt, layer with
                        | Some _, LocoL l => Some (hidden l x)
                        | _, _ => None
                        end).
Proof.
  induction items as [|[layer opt] rest IH]; intros c0 inps0 hid0 curr inps hiddens H.
  - simpl in H. injection H as <- <- <-. exists [], [].
    rewrite !app_nil_r. repeat split; auto. intros [|i] ? ? Hi; discriminate.
  - destruct (layer_call_returns layer c0) as [c1 Hc].
    set (slot := match opt, layer with
                 | Some _, LocoL l => Some (hidden l c0)
                 | _, _ => None
                 end).
    assert (Hrec : forward_loop rest c1 (inps0 ++ [c0]) (hid0 ++ [slot])
                   = Ok (curr, inps, hiddens)).
    { unfold slot.
      destruct opt as [o|], layer as [l|m];
        match type of H with
        | forward_loop ((?ly, ?op) :: _) _ _ _ = _ =>
            change (bind (layer_call ly c0)
                         (fun c => forward_loop rest c (inps0 ++ [c0])
                                     (hid0 ++ [match op, ly with
                                               | Some _, LocoL l' => Some (hidden l' c0)
                                               | _, _ => None
                                               end]))
                    = Ok (curr, inps, hiddens)) in H
        end;
        rewrite Hc in H; exact H. }
    apply IH in Hrec as (t & h & -> & -> & Ht & Hh & H0 & Hi).
    exists (c0 :: t), (slot :: h). rewrite <- !app_assoc. simpl.
    repeat split; auto.
    intros [|i] layer' opt' Hn; simpl in Hn.
    + injection Hn as <- <-. exists c0, c1. repeat split; auto.
    + destruct (Hi i layer' opt' Hn) as (x & y & ? & ? & ? & ?).
      exists x, y. repeat split; auto.
Qed.

(** X12: the forward pass records one input and one pre-activation slot
    per layer.  The first recorded input is the batch; the input
    recorded for a layer, passed through that layer, is the input
    recorded for the next one (the model's output after the last); and
    the pre-activation slot of a layer is its pre-activation on its
    recorded input when the layer is a [LocoLayer] with an optimizer,
    [None] otherwise. *)
Theorem forward_pass_records (items : list (Layer S * option (Optimizer S)))
    (xs curr : Tensor S) (inps : list (Tensor S)) (hiddens : list (option (Tensor S)))
    (i : nat) (layer : Layer S) (opt : option (Optimizer S)) :
  forward_loop items xs [] [] = Ok (curr, inps, hiddens) ->
  nth_error items i = Some (layer, opt) ->
  length inps = length items
  /\ length hiddens = length items
  /\ nth_error inps 0 = Some xs
  /\ exists x y,
       nth_error inps i = Some x
       /\ layer_call layer x = Ok y
       /\ nth_error (inps ++ [curr]) (i + 1) = Some y
       /\ nth_error hiddens i
          = Some (match opt, layer with
                  | Some _, LocoL l => Some (hidden l x)
                  | _, _ => None
                  end).
Proof.
  intros H Hi.
  apply forward_loop_records in H as (t & h & Ht & Hh & Hlt & Hlh & H0 & Hall).
  simpl in Ht, Hh. subst inps hiddens.
  repeat split; auto.
  - destruct t as [|x0 t]; [|exact H0].
    destruct items; [destruct i; discriminate | discriminate].
Qed.

End ForwardPass.

(** ** Invariants of the trainer *)

Section Invariants.
Context {S : Type} {A : Arith S}.
Variable engine : Engine S.

Lemma slots_of_layers_consistent (oc : list (Param S) -> Optimizer S)
    (layers : list (Layer S)) :
  Forall (fun ol : option (Optimizer S) * Layer S =>
            fst ol = None \/ is_LocoLayer (snd ol) = true)
         (combine (map (slot_of oc) layers) layers).
Proof.
  induction layers as [|layer rest IH]; simpl; constructor; [|exact IH].
  unfold slot_of. simpl. destruct (is_LocoLayer layer); simpl; auto.
Qed.

(** X13: the trainer that the constructor returns has one optimizer slot
    per layer, holds optimizers at the indices of [LocoLayer]s only, has
    no gradient slot yet and a step counter of 0. *)
Theorem constructed_trainer_invariants (layers : list (Layer S))
    (loss : Tensor S -> Tensor S -> S) (oc : list (Param S) -> Optimizer S)
    (rate : S) (iters : nat) (v : VariantTag) (mom corr : S) :
  let t := fst (__init__ layers loss oc rate iters v mom corr) in
  aligned t /\ consistent t /\ grads t = [] /\ _step t = 0.
Proof.
  unfold __init__, aligned, consistent. rewrite init_loop_spec. simpl.
  repeat split; auto.
  - now rewrite length_map.
  - apply slots_of_layers_consistent.
Qed.

Lemma combine_set_nth_forall {X Y : Type} (P : X * Y -> Prop) (l1 : list X) :
  forall (l2 : list Y) i x,
    Forall P (combine l1 l2) ->
    (forall y, nth_error l2 i = Some y -> P (x, y)) ->
    Forall P (combine (set_nth i x l1) l2).
Proof.
  induction l1 as [|x0 l1 IH]; intros [|y0 l2] [|i] x HF Hx; simpl in *;
    try exact HF; inversion HF; subst; constructor; auto.
Qed.

Lemma combine_nth_error {X Y : Type} (l1 : list X) :
  forall (l2 : list Y) k x y,
    nth_error l1 k = Some x -> nth_error l2 k = Some y ->
    nth_error (combine l1 l2) k = Some (x, y).
Proof.
  induction l1 as [|x0 l1 IH]; intros [|y0 l2] [|k] x y H1 H2; simpl in *;
    try discriminate.
  - now injection H1 as ->; injection H2 as ->.
  - now apply IH.
Qed.

Lemma update_layer_invariants (self : LocopropTrainer S) (inps : list (Tensor S)) (i : nat)
    (opt : option (Optimizer S)) (layer : Layer S) (grad : option (Tensor S)) :
  nth_error (model self) i = Some layer ->
  consistent self ->
  consistent (fst (fst (update_layer engine self inps i opt layer grad)))
  /\ length (opts (fst (fst (update_layer engine self inps i opt layer grad))))
     = length (opts self).
Proof.
  intros Hl Hc. unfold update_layer.
  destruct opt as [o|]; [|auto].
  destruct layer as [l|m]; [|auto].
  destruct (nth_error inps i) as [inp|]; [|auto].
  destruct grad as [g|]; [|auto].
  rewrite local_iterations_loop_spec.
  assert (Hstore : forall o', consistent (store self i o' l)
                              /\ length (opts (store self i o' l)) = length (opts self)).
  { intros o'. unfold consistent, store. simpl.
    rewrite (set_nth_same _ _ Hl), set_nth_length. split; [|reflexivity].
    apply combine_set_nth_forall; [exact Hc|].
    intros y Hy. rewrite Hl in Hy. injection Hy as <-. now right. }
  destruct (seq 0 (local_iterations self)); simpl; [|apply Hstore].
  repeat (break_match; simpl); apply Hstore.
Qed.

Lemma local_loop_invariants
    (items : list (option (Optimizer S) * Layer S * option (Tensor S))) :
  forall i self inps,
    (forall k o l g, nth_error items k = Some (o, l, g) ->
                     nth_error (model self) (i + k) = Some l) ->
    consistent self ->
    consistent (fst (fst (local_loop engine items i self inps)))
    /\ length (opts (fst (fst (local_loop engine items i self inps))))
       = length (opts self).
Proof.
  induction items as [|[[opt layer] grad] rest IH]; intros i self inps H Hc; simpl.
  - auto.
  - assert (Hl : nth_error (model self) i = Some layer)
      by (rewrite <- (Nat.add_0_r i); apply (H 0 opt layer grad); reflexivity).
    pose proof (update_layer_model engine self inps i opt grad Hl) as Hm.
    pose proof (@update_layer_invariants self inps i opt layer grad Hl Hc) as [Hc' Hlen].
    destruct (update_layer engine self inps i opt layer grad) as [[self' inps'] r].
    simpl in Hm, Hc', Hlen. destruct r as [[]|e]; simpl; [|auto].
    destruct (IH (Datatypes.S i) self' inps') as [Hc'' Hlen'']; [|exact Hc'|].
    + intros k o l g Hk. rewrite Hm, Nat.add_succ_comm. now apply (H (Datatypes.S k) o l g).
    + split; [exact Hc''|congruence].
Qed.

Lemma update_layer_error (self : LocopropTrainer S) (inps : list (Tensor S)) (i : nat)
    (opt : option (Optimizer S)) (layer : Layer S) (grad : option (Tensor S)) :
  opt = None \/ is_LocoLayer layer = true ->
  snd (update_layer engine self inps i opt layer grad) <> Raise InconsistentConfiguration.
Proof.
  intros Hol. unfold update_layer.
  destruct opt as [o|]; [|discriminate].
  destruct layer as [l|m]; [|destruct Hol; discriminate].
  destruct (nth_error inps i) as [inp|]; [|discriminate].
  destruct grad as [g|]; [|discriminate].
  rewrite local_iterations_loop_spec.
  destruct (seq 0 (local_iterations self)); simpl.
  - unfold forward. destruct (implicit l); repeat (break_match; simpl); discriminate.
  - destruct (activation l); discriminate.
Qed.

Lemma local_loop_error
    (items : list (option (Optimizer S) * Layer S * option (Tensor S))) :
  forall i self inps,
    Forall (fun it => fst (fst it) = None \/ is_LocoLayer (snd (fst it)) = true) items ->
    snd (local_loop engine items i self inps) <> Raise InconsistentConfiguration.
Proof.
  induction items as [|[[opt layer] grad] rest IH]; intros i self inps HF; simpl.
  - discriminate.
  - inversion HF as [|? ? Hhd Htl]; subst. simpl in Hhd.
    pose proof (@update_layer_error self inps i opt layer grad Hhd) as He.
    destruct (update_layer engine self inps i opt layer grad) as [[self' inps'] r].
    simpl in He. destruct r as [[]|e]; simpl; [now apply IH | exact He].
Qed.

Lemma consistent_enable_grad (os : list (option (Optimizer S))) :
  forall ls : list (Layer S),
    Forall (fun ol : option (Optimizer S) * Layer S =>
              fst ol = None \/ is_LocoLayer (snd ol) = true) (combine os ls) ->
    Forall (fun ol : option (Optimizer S) * Layer S =>
              fst ol = None \/ is_LocoLayer (snd ol) = true)
           (combine os (map enable_grad ls)).
Proof.
  induction os as [|o os IH]; intros [|l ls] H; simpl in *; try constructor.
  - inversion H as [|? ? Hhd Htl]; subst. simpl in *. destruct l; exact Hhd.
  - inversion H; subst. now apply IH.
Qed.

Lemma zip3_consistent (os : list (option (Optimizer S))) :
  forall (ls : list (Layer S)) (gs : list (option (Tensor S))),
    Forall (fun ol : option (Optimizer S) * Layer S =>
              fst ol = None \/ is_LocoLayer (snd ol) = true) (combine os ls) ->
    Forall (fun it : option (Optimizer S) * Layer S * option (Tensor S) =>
              fst (fst it) = None \/ is_LocoLayer (snd (fst it)) = true)
           (zip3 os ls gs).
Proof.
  induction os as [|o os IH]; intros [|l ls] [|g gs] H; simpl in *; try constructor.
  - inversion H; subst. assumption.
  - inversion H; subst. now apply IH.
Qed.

Lemma observed_grads_length (self : LocopropTrainer S) (xs ys : Tensor S)
    (hiddens : list (option (Tensor S))) :
  length (observed_grads engine self xs ys hiddens) = length hiddens.
Proof.
  unfold observed_grads. rewrite length_map, length_combine, length_seq. lia.
Qed.

Lemma update_grads_length (self : LocopropTrainer S)
    (obs gs : list (option (Tensor S))) (n : nat) :
  update_grads self obs = Ok gs ->
  length obs = n ->
  grads self = [] \/ length (grads self) = n ->
  length gs = n.
Proof.
  unfold update_grads. intros H Ho Hg.
  destruct (grads self) as [|m ms] eqn:E; simpl in H.
  - now injection H as <-.
  - destruct Hg as [Hg|Hg]; [discriminate|].
    apply smooth_all_length in H. rewrite H, Ho, Hg. apply Nat.min_id.
Qed.

(** X14: [step] keeps the trainer's lists aligned and its optimizers at
    the indices of [LocoLayer]s, whether it returns or raises; and on
    such a trainer it never raises [InconsistentConfiguration].  With
    the constructor establishing both, no call of [step] on a trainer
    that only [step] has touched raises that error. *)
Theorem step_keeps_invariants (self : LocopropTrainer S) (xs ys : Tensor S) :
  aligned self ->
  consistent self ->
  aligned (fst (step engine self xs ys))
  /\ consistent (fst (step engine self xs ys))
  /\ snd (step engine self xs ys) <> Raise InconsistentConfiguration.
Proof.
  intros [Hlen Hg] Hc. unfold step, prepare. simpl.
  destruct (forward_loop_returns (combine (model self) (opts self)) xs [] [])
    as [[[curr inps] hiddens] Hf].
  rewrite Hf.
  destruct (backward_fails engine _ _ _ _ _);
    [simpl; split; [split; assumption | split; [exact Hc | discriminate]]|].
  destruct (update_grads (with_step self (_step self + 1))
              (observed_grads engine (with_step self (_step self + 1)) xs ys hiddens))
    as [gs|e] eqn:Hu.
  - assert (Hgs : length gs = length (model self)).
    { eapply update_grads_length; [exact Hu| |exact Hg].
      rewrite observed_grads_length.
      apply forward_loop_records in Hf as (t & h & _ & Hh & _ & Hlh & _).
      simpl in Hh. subst hiddens. rewrite Hlh, length_combine. lia. }
    set (s1 := with_model (with_grads (with_step self (_step self + 1)) gs)
                          (map enable_grad (model self))).
    assert (Hc1 : consistent s1) by (apply consistent_enable_grad; exact Hc).
    assert (Hit : forall k o l g,
               nth_error (zip3 (opts s1) (model s1) (grads s1)) k = Some (o, l, g) ->
               nth_error (model s1) (0 + k) = Some l).
    { intros k o l g Hk. now apply zip3_nth in Hk as (_ & Hl & _). }
    pose proof (@local_loop_model _ _ engine _ 0 s1 inps Hit) as Hm.
    pose proof (@local_loop_invariants _ 0 s1 inps Hit Hc1) as [Hc' Hlo].
    pose proof (local_loop_settings engine (zip3 (opts s1) (model s1) (grads s1)) 0 s1 inps)
      as (_ & Hgr & _).
    pose proof (@local_loop_error (zip3 (opts s1) (model s1) (grads s1)) 0 s1 inps
                  (@zip3_consistent _ _ (grads s1) Hc1)) as He.
    destruct (local_loop engine (zip3 (opts s1) (model s1) (grads s1)) 0 s1 inps)
      as [[s' inps'] r].
    simpl in Hm, Hc', Hlo, Hgr, He.
    assert (Ha : aligned s').
    { unfold aligned. rewrite Hm, Hlo, Hgr. simpl. rewrite length_map. auto. }
    destruct r as [[]|e]; simpl; (split; [exact Ha | split; [exact Hc'|]]);
      [discriminate | intros Hx; apply He; now injection Hx as ->].
  - apply update_grads_raise in Hu as [msg ->]. simpl.
    repeat split; auto. discriminate.
Qed.

End Invariants.

(** ** The potentials and the shape of the correction *)

Section MoreLoopProperties.
Context {S : Type} {A : Arith S}.
Variable engine : Engine S.

(** X3: looked up by class, every activation class has a potential.
    The potential of [nn.ReLU] raises [NameError] on every input (it
    reads the unbound module-level name [F]); the three others return
    one value per example. *)
Theorem potentials_by_class (c : ActivationClass) (x : Tensor S) :
  exists F,
    getitem function_mapping (@ClassObj S c) = Ok F
    /\ match c with
       | ReLU => F x = Raise (NameError "F")
       | _ => exists v, F x = Ok v /\ length v = length x
       end.
Proof.
  destruct c; eexists; (split; [reflexivity|]); simpl; try reflexivity;
    eexists; (split; [reflexivity|]);
    unfold sum_last, logsumexp; rewrite length_map; try reflexivity;
    unfold t_add, t_map2.
  all: unfold t_log, add_scalar_left, t_exp, t_neg, t_map; rewrite ?length_map.
  all: induction x as [|r x IH]; simpl; [reflexivity | now rewrite IH].
Qed.

End MoreLoopProperties.

Section CorrectionShape.
Local Open Scope R_scope.

Lemma scale_then_divide (n : R) (t : Tensor R) :
  n <> 0 -> div_scalar (scalar_mul n t) n = t.
Proof.
  intros Hn. unfold div_scalar, scalar_mul, t_map. cbn [smul sdiv R_arith].
  rewrite map_map. rewrite <- (map_id t) at 2. apply map_ext. intros row.
  rewrite map_map. rewrite <- (map_id row) at 2. apply map_ext. intros v.
  now field.
Qed.

(** X16: in exact arithmetic, a difference whose norm plus [1e-5] is
    within the cap [correction * sqrt(delta.size(1))] is applied in
    full: the increment of line 168 is the difference itself. *)
Theorem small_difference_applied_in_full (c : R) (delta : Tensor R) :
  norm delta + 1 / 100000 <= c * R_sqrt.sqrt (INR (size1 delta)) ->
  correction_increment c delta = delta.
Proof.
  intros H. unfold correction_increment.
  cbn [sadd smul spow_half of_nat lit_1e_5 R_arith].
  pose proof (norm_nonneg delta) as Hq.
  unfold py_min. cbn [sltb R_arith].
  destruct (R_ltb (c * R_sqrt.sqrt (INR (size1 delta))) (norm delta + 1 / 100000)) eqn:E.
  - apply R_ltb_true in E. lra.
  - apply scale_then_divide. lra.
Qed.

(** X17: in exact arithmetic, with [correction >= 0], a difference whose
    norm plus [1e-5] exceeds the cap gives an increment of norm
    [cap * n / (n + 1e-5)], where [n] is the norm of the difference:
    the increment points along the difference and is shorter than the
    cap. *)
Theorem large_difference_is_capped (c : R) (delta : Tensor R) :
  0 <= c ->
  c * R_sqrt.sqrt (INR (size1 delta)) < norm delta + 1 / 100000 ->
  correction_increment c delta
  = div_scalar (scalar_mul (c * R_sqrt.sqrt (INR (size1 delta))) delta)
               (norm delta + 1 / 100000)
  /\ norm (correction_increment c delta)
     = c * R_sqrt.sqrt (INR (size1 delta)) * (norm delta / (norm delta + 1 / 100000))
  /\ norm (correction_increment c delta) <= c * R_sqrt.sqrt (INR (size1 delta)).
Proof.
  intros Hc H.
  pose proof (norm_nonneg delta) as Hq.
  pose proof (sqrt_pos (INR (size1 delta))) as Hd.
  assert (Hcap : 0 <= c * R_sqrt.sqrt (INR (size1 delta))) by nra.
  assert (E : correction_increment c delta
              = div_scalar (scalar_mul (c * R_sqrt.sqrt (INR (size1 delta))) delta)
                           (norm delta + 1 / 100000)).
  { unfold correction_increment.
    cbn [sadd smul spow_half of_nat lit_1e_5 R_arith].
    unfold py_min. cbn [sltb R_arith].
    now rewrite (@R_ltb_lt _ _ H). }
  rewrite E. split; [reflexivity|].
  rewrite norm_scaled by lra.
  assert (Hr : 0 <= norm delta / (norm delta + 1 / 100000) <= 1).
  { split.
    - unfold Rdiv. apply Rmult_le_pos; [lra|]. left. apply Rinv_0_lt_compat. lra.
    - apply Rmult_le_reg_r with (norm delta + 1 / 100000); [lra|].
      unfold Rdiv. rewrite Rmult_assoc, Rinv_l by lra. lra. }
  split; [unfold Rdiv; ring | unfold Rdiv in *; nra].
Qed.

End CorrectionShape.

(** ** The further properties at concrete inputs, in exact arithmetic *)

Lemma trainable_layer_update_raises_witness :
  update_layer (A := R_arith) sgd_engine
    (make_trainer [LocoL (relu_layer 1%R)] 5 0%R) [batch] 0
    (Some (new_optimizer [])) (LocoL (relu_layer 1%R)) (Some batch)
  = (store (make_trainer [LocoL (relu_layer 1%R)] 5 0%R) 0
       (set_lr (new_optimizer [])
          (lr (new_optimizer (S := R) [])
           * py_max (1 - INR 0 / INR 5) (1 / 4))%R)
       (relu_layer 1%R),
     [batch],
     Raise (UnboundLocalError "y")).
Proof.
  apply (trainable_layer_update_raises (A := R_arith) sgd_engine
           (make_trainer [LocoL (relu_layer 1%R)] 5 0%R) [batch] 0
           (new_optimizer []) (relu_layer 1%R) batch (inp := batch)).
  - reflexivity.
  - simpl. lia.
Defined.

Lemma step_returns_only_without_optimizers_witness :
  let t' := fst (step (A := R_arith) sgd_engine
                   (make_trainer [PlainL (scale_module 1%R)] 5 0%R) batch batch) in
  Forall (fun it : option (Optimizer R) * Layer R * option (Tensor R) => fst (fst it) = None)
         (zip3 (opts t') (model t') (grads t')).
Proof.
  eapply (step_returns_only_without_optimizers (A := R_arith) sgd_engine
            (make_trainer [PlainL (scale_module 1%R)] 5 0%R) batch batch).
  - simpl. lia.
  - reflexivity.
Defined.

Lemma none_slot_stays_none_witness :
  update_grads (A := R_arith) (with_grads one_layer_trainer [None; Some batch])
               [Some batch; Some batch]
  = Ok [None;
        Some (div_scalar
                (t_add (scalar_mul (1 - 0)%R batch) (scalar_mul 0%R batch))
                (debias_of (with_grads one_layer_trainer [None; Some batch])))]
  /\ nth_error
       [None;
        Some (div_scalar
                (t_add (scalar_mul (1 - 0)%R batch) (scalar_mul 0%R batch))
                (debias_of (A := R_arith) (with_grads one_layer_trainer [None; Some batch])))]
       0
     = Some None.
Proof.
  split; [reflexivity|].
  apply (none_slot_stays_none (A := R_arith)
           (with_grads one_layer_trainer [None; Some batch])
           [Some batch; Some batch] (i := 0)).
  - reflexivity.
  - reflexivity.
  - simpl. lia.
Defined.

Lemma missing_gradient_raises_witness :
  update_grads (A := R_arith) (with_grads one_layer_trainer [Some batch]) [None]
  = Raise (TypeError float_times_none).
Proof.
  apply (@missing_gradient_raises R R_arith
           (with_grads one_layer_trainer [Some batch]) [None] 0 batch);
    reflexivity.
Defined.

Lemma forward_pass_records_witness :
  let l := relu_layer 1%R in
  let out := activation_call (activation l) (hidden l batch) in
  length [batch (S := R)] = 1
  /\ length [Some (hidden l batch)] = 1
  /\ nth_error [batch (S := R)] 0 = Some batch
  /\ exists x y,
       nth_error [batch] 0 = Some x
       /\ layer_call (LocoL l) x = Ok y
       /\ nth_error ([batch] ++ [out]) (0 + 1) = Some y
       /\ nth_error [Some (hidden l batch)] 0 = Some (Some (hidden l x)).
Proof.
  apply (@forward_pass_records R R_arith
           [(LocoL (relu_layer 1%R), Some (new_optimizer []))] batch
           (activation_call (activation (relu_layer 1%R)) (hidden (relu_layer 1%R) batch))
           [batch] [Some (hidden (relu_layer 1%R) batch)]
           0 (LocoL (relu_layer 1%R)) (Some (new_optimizer [])));
    reflexivity.
Defined.

Lemma step_keeps_invariants_witness :
  aligned (fst (step (A := R_arith) sgd_engine two_layer_trainer batch batch))
  /\ consistent (fst (step (A := R_arith) sgd_engine two_layer_trainer batch batch))
  /\ snd (step (A := R_arith) sgd_engine two_layer_trainer batch batch)
     <> Raise InconsistentConfiguration.
Proof.
  apply (@step_keeps_invariants R R_arith sgd_engine two_layer_trainer batch batch).
  - split; [reflexivity | left; reflexivity].
  - repeat constructor; right; reflexivity.
Defined.

Lemma small_difference_applied_in_full_witness :
  correction_increment (A := R_arith) 1%R [[0%R]] = [[0%R]].
Proof.
  apply small_difference_applied_in_full.
  unfold norm. cbn.
  replace (0 + 0 * 0)%R with 0%R by lra.
  rewrite sqrt_0, sqrt_1. lra.
Defined.

Lemma large_difference_is_capped_witness :
  let cap := (1 / 4 * R_sqrt.sqrt (INR (size1 [[1%R]])))%R in
  correction_increment (A := R_arith) (1 / 4)%R [[1%R]]
  = div_scalar (scalar_mul cap [[1%R]]) (norm [[1%R]] + 1 / 100000)%R
  /\ norm (correction_increment (A := R_arith) (1 / 4)%R [[1%R]])
     = (cap * (norm [[1%R]] / (norm [[1%R]] + 1 / 100000)))%R
  /\ (norm (correction_increment (A := R_arith) (1 / 4)%R [[1%R]]) <= cap)%R.
Proof.
  apply large_difference_is_capped; [lra|].
  unfold norm. cbn.
  replace (0 + 1 * 1)%R with 1%R by lra.
  rewrite sqrt_1. lra.
Defined.

(** ** The correction in binary64, shared storage, parametric activations *)

(** C4, as stated, in binary64: it is not the case that the norm of the
    increment of lines 166-168 is at most [correction * sqrt(size(1))]
    for every positive [correction] and every difference.  With
    [correction = 0.1] and the difference [[177777777136.0]] the
    increment is [0x1.999999999999bp-4] and the cap
    [0x1.999999999999ap-4]. *)
Lemma nudge_exceeds_cap_binary64 :
  ~ (forall (libm_exp libm_log : float -> float) (corr : float) (delta : Tensor float),
       PrimFloat.ltb 0 corr = true ->
       PrimFloat.leb
         (norm (A := float_arith libm_exp libm_log)
               (correction_increment (A := float_arith libm_exp libm_log) corr delta))
         (PrimFloat.mul corr
            (PrimFloat.sqrt (of_nat (Arith := float_arith libm_exp libm_log) (size1 delta))))
       = true).
Proof.
  intros H.
  specialize (H (fun v => v) (fun v => v) 0x1.999999999999ap-4%float
                [[177777777136%float]] eq_refl).
  vm_compute in H. discriminate H.
Qed.

(** The same pass through the loop body: the entry [inps[1]] goes from 0
    to an amount above the cap. *)
Example nudge_exceeds_cap_in_loop_body (libm_exp libm_log : float -> float) :
  let FA := float_arith libm_exp libm_log in
  let corr := 0x1.999999999999ap-4%float in
  let layer := relu_layer (A := FA) 1%float in
  snd (fst (update_layer (A := FA) sgd_engine
              (make_trainer (A := FA) [LocoL layer; LocoL layer] 0 corr)
              [ [[177777777136%float]]; [[0%float]] ] 0
              (Some (new_optimizer (A := FA) [])) (LocoL layer) (Some [[1%float]])))
  = [ [[177777777136%float]]; [[0x1.999999999999bp-4%float]] ]
  /\ PrimFloat.ltb (PrimFloat.mul corr (PrimFloat.sqrt 1)) 0x1.999999999999bp-4 = true.
Proof. split; vm_compute; reflexivity. Qed.

(** A recorded input that shares the storage of [inps[i + 1]] changes
    with it: the layer at index 1 is [nn.Identity()], so the entries 1
    and 2 are one tensor, and the pass at index 0 moves both. *)
Example nudge_reaches_shared_storage (libm_exp libm_log : float -> float) :
  let FA := float_arith libm_exp libm_log in
  let layer := relu_layer (A := FA) 1%float in
  exists v : float,
    snd (fst (update_layer (A := FA) sgd_engine
                (make_trainer (A := FA)
                   [LocoL layer; PlainL (identity_module (S := float)); LocoL layer]
                   0 0.25%float)
                [ [[1%float]]; [[0%float]]; [[0%float]] ] 0
                (Some (new_optimizer (A := FA) [])) (LocoL layer) (Some [[1%float]])))
    = [ [[1%float]]; [[v]]; [[v]] ]
    /\ PrimFloat.ltb 0 v = true.
Proof. eexists. split; vm_compute; reflexivity. Qed.

(** [LocoLayer(nn.Identity(), nn.PReLU())]: the layer's only trainable
    parameter is the activation's, and the constructor gives it an
    optimizer over that parameter, without a warning. *)
Example parametric_activation_gets_optimizer :
  __init__ (S := R) [LocoL (prelu_layer (1 / 4)%R)] sum_loss new_optimizer
           10%R 5 LocoPropM 0%R 0%R
  = ({| model := [LocoL (prelu_layer (1 / 4)%R)]; loss_fn := sum_loss;
        learning_rate := 10%R; local_iterations := 5; variant := LocoPropM;
        momentum := 0%R; correction := 0%R;
        opts := [Some (new_optimizer [ {| data := [[(1 / 4)%R]]; requires_grad := true |} ])];
        grads := []; _step := 0 |}, []).
Proof. reflexivity. Qed.

(** A model in which nothing requires a gradient: [backward()] raises
    (line 129), after the step counter was incremented. *)
Example backward_raises_without_gradients :
  step (A := R_arith) sgd_engine (make_trainer [PlainL identity_module] 5 0%R) batch batch
  = (with_step (make_trainer [PlainL identity_module] 5 0%R) 1, Raise backward_error).
Proof. reflexivity. Qed.
